(** * Modulaire Kunst Studio: document model, undo/redo history and grid snap

    A shallow embedding of [src/ModulaireKunstStudio.tsx].

    Modelling conventions.
    - A JavaScript [number] is an exact rational ([Q]): finite values, no
      rounding error, no NaN and no infinities.
    - The React component state (the [useState] cells) is the record
      [State].  An event handler reads the values of the render it closes
      over and queues updates through the setters; here a handler is a
      function [State -> State] taken on a settled state, its setter calls
      chained with [|>] in source order.  The key listener is the exception:
      it keeps the handlers of the render it was registered in, so [onKey]
      takes that render's state beside the current one.
    - [uid()] draws from [Math.random]; the drawn identifier is an argument
      of the handler that calls it.
    - The browser pieces a handler touches ([canvasRef.current], the
      [localStorage] entry, [alert]) are arguments and results too.
    - What the component renders on the canvas is the list of [Rnd] boxes
      with the props that depend on the state; [JSON.stringify],
      [JSON.parse], [toPng], [toSvg] and the printing of numbers are
      parameters. *)

From Stdlib Require Import String List Bool ZArith QArith Qround Qabs Qminmax.
From Stdlib Require Import Sorted Permutation Lia Lqa.
Import ListNotations.

Open Scope Q_scope.

(** ** JavaScript values and built-ins used by the component *)

Definition number : Type := Q.

(** [Math.round]: the integer closest to [x], ties towards +infinity. *)
Definition Math_round (x : number) : number := inject_Z (Qfloor (x + (1 # 2))).

Definition Math_min (a b : number) : number := Qmin a b.
Definition Math_max (a b : number) : number := Qmax a b.

(** [structuredClone] builds a deep copy; on immutable values it is the
    identity. *)
Definition structuredClone {A : Type} (v : A) : A := v.

(** [arr[arr.length - 1]], [undefined] on an empty array. *)
Fixpoint lastElement {A : Type} (arr : list A) : option A :=
  match arr with
  | [] => None
  | [v] => Some v
  | _ :: rest => lastElement rest
  end.

(** [arr.slice(0, -1)] and [arr.slice(1)]. *)
Definition slice_0_m1 {A : Type} (arr : list A) : list A := removelast arr.
Definition slice_1 {A : Type} (arr : list A) : list A := tl arr.

(** [!s] for [s : string | null]: [null] and the empty string are falsy. *)
Definition falsy (s : option string) : bool :=
  match s with
  | None => true
  | Some v => String.eqb v EmptyString
  end.

(** [s |> f]: the next queued update. *)
Notation "s |> f" := (f s) (at level 45, left associativity, only parsing).

(** ** Data model *)

Module Asset.
Record t : Type := mk { id : string; name : string; dataUrl : string }.
End Asset.

Module Piece.
Record t : Type := mk {
  id : string;
  assetId : string;
  x : number;
  y : number;
  width : number;
  height : number;
  hue : number;
  saturate : number;
  brightness : number;
  contrast : number;
  opacity : number;
  z : number
}.

(** [{ ...p, z: v }] *)
Definition with_z (p : t) (v : number) : t :=
  mk (id p) (assetId p) (x p) (y p) (width p) (height p)
     (hue p) (saturate p) (brightness p) (contrast p) (opacity p) v.

(** [Partial<Piece>]: the fields a patch carries. *)
Record patch : Type := mkPatch {
  p_id : option string;
  p_assetId : option string;
  p_x : option number;
  p_y : option number;
  p_width : option number;
  p_height : option number;
  p_hue : option number;
  p_saturate : option number;
  p_brightness : option number;
  p_contrast : option number;
  p_opacity : option number;
  p_z : option number
}.

Definition pick {A : Type} (new : option A) (old : A) : A :=
  match new with Some v => v | None => old end.

(** [{ ...p, ...patch }] *)
Definition merge (p : t) (d : patch) : t :=
  mk (pick (p_id d) (id p)) (pick (p_assetId d) (assetId p))
     (pick (p_x d) (x p)) (pick (p_y d) (y p))
     (pick (p_width d) (width p)) (pick (p_height d) (height p))
     (pick (p_hue d) (hue p)) (pick (p_saturate d) (saturate p))
     (pick (p_brightness d) (brightness p)) (pick (p_contrast d) (contrast p))
     (pick (p_opacity d) (opacity p)) (pick (p_z d) (z p)).
End Piece.

Module Project.
Record t : Type := mk { assets : list Asset.t; pieces : list Piece.t }.
End Project.

Definition PROJECT_KEY : string := "modulaire-kunst-project-v1"%string.
Definition gridSize : number := 24.

(** ** Component state *)

Record State : Type := mkState {
  assets : list Asset.t;
  pieces : list Piece.t;
  selectedId : option string;
  history : list Project.t;
  future : list Project.t;
  suppressUI : bool;
  snapEnabled : bool
}.

(** The initial values of the [useState] cells. *)
Definition initialState : State := mkState [] [] None [] [] false false.

(** The setters, each taking the updater function React applies to the
    current value of its cell. *)
Definition setAssets (f : list Asset.t -> list Asset.t) (s : State) : State :=
  mkState (f (assets s)) (pieces s) (selectedId s) (history s) (future s)
          (suppressUI s) (snapEnabled s).

Definition setPieces (f : list Piece.t -> list Piece.t) (s : State) : State :=
  mkState (assets s) (f (pieces s)) (selectedId s) (history s) (future s)
          (suppressUI s) (snapEnabled s).

Definition setSelectedId (f : option string -> option string) (s : State) : State :=
  mkState (assets s) (pieces s) (f (selectedId s)) (history s) (future s)
          (suppressUI s) (snapEnabled s).

Definition setHistory (f : list Project.t -> list Project.t) (s : State) : State :=
  mkState (assets s) (pieces s) (selectedId s) (f (history s)) (future s)
          (suppressUI s) (snapEnabled s).

Definition setFuture (f : list Project.t -> list Project.t) (s : State) : State :=
  mkState (assets s) (pieces s) (selectedId s) (history s) (f (future s))
          (suppressUI s) (snapEnabled s).

Definition setSnapEnabled (f : bool -> bool) (s : State) : State :=
  mkState (assets s) (pieces s) (selectedId s) (history s) (future s)
          (suppressUI s) (f (snapEnabled s)).

(** [setX(v)] with a plain value. *)
Definition to {A : Type} (v : A) : A -> A := fun _ => v.

(** [pieces.find((p) => p.id === selectedId) || null] *)
Definition selectedPiece (s : State) : option Piece.t :=
  match selectedId s with
  | None => None
  | Some sel => find (fun p => String.eqb (Piece.id p) sel) (pieces s)
  end.

(** ** Snapshots and the history stacks *)

Definition snapshot (s : State) : Project.t :=
  Project.mk (structuredClone (assets s)) (structuredClone (pieces s)).

Definition pushHistory (s : State) : State :=
  s |> setHistory (fun h => h ++ [snapshot s])
    |> setFuture (to []).

Definition undo (s : State) : State :=
  match lastElement (history s) with
  | None => s
  | Some prev =>
      s |> setHistory (fun h => slice_0_m1 h)
        |> setFuture (fun f => snapshot s :: f)
        |> setAssets (to (Project.assets prev))
        |> setPieces (to (Project.pieces prev))
  end.

Definition redo (s : State) : State :=
  match future s with
  | [] => s
  | next :: _ =>
      s |> setFuture (fun f => slice_1 f)
        |> setHistory (fun h => h ++ [snapshot s])
        |> setAssets (to (Project.assets next))
        |> setPieces (to (Project.pieces next))
  end.

(** ** Browser objects the handlers read *)

Module DOMRect.
(** The fields of [getBoundingClientRect()] the component reads. *)
Record t : Type := mk { width : number; height : number }.
End DOMRect.

Module File.
(** An uploaded file: its name and what [FileReader.readAsDataURL] yields,
    [None] when the reader fires [onerror]. *)
Record t : Type := mk { name : string; read : option string }.
End File.

(** ** Mutation operations *)

(** The loop of [onUpload]: files are read in order, the [i]-th asset takes
    the [i]-th draw of [uid()]; a rejected read aborts the handler before
    [setAssets]. *)
Fixpoint readFiles (uid : nat -> string) (i : nat) (files : list File.t)
  : option (list Asset.t) :=
  match files with
  | [] => Some []
  | f :: rest =>
      match File.read f with
      | None => None
      | Some dataUrl =>
          match readFiles uid (S i) rest with
          | None => None
          | Some newAssets => Some (Asset.mk (uid i) (File.name f) dataUrl :: newAssets)
          end
      end
  end.

(** [onUpload], its awaits taken as one step. *)
Definition onUpload (uid : nat -> string) (files : option (list File.t)) (s : State)
  : State :=
  match files with
  | None => s
  | Some [] => s
  | Some fl =>
      match readFiles uid 0 fl with
      | None => pushHistory s
      | Some newAssets => pushHistory s |> setAssets (fun a => a ++ newAssets)
      end
  end.

(** [(pieces[pieces.length - 1]?.z ?? 0) + 1] *)
Definition nextZ (ps : list Piece.t) : number :=
  match lastElement ps with
  | Some p => Piece.z p
  | None => 0
  end + 1.

Definition defaultSize (rect : DOMRect.t) : number :=
  Math_min (DOMRect.width rect) (DOMRect.height rect) * (3 # 10).

Definition newPiece (rect : DOMRect.t) (uid : string) (asset : Asset.t)
  (ps : list Piece.t) : Piece.t :=
  Piece.mk uid (Asset.id asset)
    (DOMRect.width rect / 2 - defaultSize rect / 2)
    (DOMRect.height rect / 2 - defaultSize rect / 2)
    (defaultSize rect) (defaultSize rect)
    0 100 100 100 100
    (nextZ ps).

Definition addPieceFromAsset (canvasRef : option DOMRect.t) (uid : string)
  (asset : Asset.t) (s : State) : State :=
  match canvasRef with
  | None => s
  | Some rect =>
      let np := newPiece rect uid asset (pieces s) in
      pushHistory s
        |> setPieces (fun p => p ++ [np])
        |> setSelectedId (to (Some (Piece.id np)))
  end.

Definition removeSelected (s : State) : State :=
  match selectedId s with
  | None => s
  | Some sel =>
      if String.eqb sel EmptyString then s
      else
        pushHistory s
          |> setPieces (fun p => filter (fun x => negb (String.eqb (Piece.id x) sel)) p)
          |> setSelectedId (to None)
  end.

(** [{ ...selectedPiece, id: uid(), x: .. + 20, y: .. + 20, z: .. + 1 }] *)
Definition duplicateOf (uid : string) (sp : Piece.t) : Piece.t :=
  Piece.mk uid (Piece.assetId sp)
    (Piece.x sp + 20) (Piece.y sp + 20)
    (Piece.width sp) (Piece.height sp)
    (Piece.hue sp) (Piece.saturate sp) (Piece.brightness sp)
    (Piece.contrast sp) (Piece.opacity sp)
    (Piece.z sp + 1).

Definition duplicateSelected (uid : string) (s : State) : State :=
  match selectedPiece s with
  | None => s
  | Some sp =>
      let copy := duplicateOf uid sp in
      pushHistory s
        |> setPieces (fun p => p ++ [copy])
        |> setSelectedId (to (Some (Piece.id copy)))
  end.

Definition bringForward (s : State) : State :=
  match selectedPiece s with
  | None => s
  | Some sp =>
      pushHistory s
        |> setPieces (fun p =>
             map (fun x => if String.eqb (Piece.id x) (Piece.id sp)
                           then Piece.with_z x (Piece.z x + 1) else x) p)
  end.

Definition sendBackward (s : State) : State :=
  match selectedPiece s with
  | None => s
  | Some sp =>
      pushHistory s
        |> setPieces (fun p =>
             map (fun x => if String.eqb (Piece.id x) (Piece.id sp)
                           then Piece.with_z x (Math_max 0 (Piece.z x - 1)) else x) p)
  end.

Definition updateSelected (d : Piece.patch) (s : State) : State :=
  match selectedPiece s with
  | None => s
  | Some sp =>
      s |> setPieces (fun p =>
             map (fun x => if String.eqb (Piece.id x) (Piece.id sp)
                           then Piece.merge x d else x) p)
  end.

(** ** Coordinate snap *)

(** [snapEnabled ? Math.round(v / gridSize) * gridSize : v], the expression
    [onDragStop] and [onResizeStop] apply to each coordinate. *)
Definition snap (enabled : bool) (v : number) : number :=
  if enabled then Math_round (v / gridSize) * gridSize else v.

Definition onDragStop (dx dy : number) (s : State) : State :=
  let nx := snap (snapEnabled s) dx in
  let ny := snap (snapEnabled s) dy in
  updateSelected
    (Piece.mkPatch None None (Some nx) (Some ny) None None None None None None None None)
    s.

(** [onResizeStop] of the piece [pc]; [refWidth] and [refHeight] are
    [parseFloat(ref.style.width)] and [parseFloat(ref.style.height)]. *)
Definition onResizeStop (pc : Piece.t) (refWidth refHeight posX posY : number)
  (s : State) : State :=
  s |> setPieces (fun arr =>
         map (fun x =>
                if String.eqb (Piece.id x) (Piece.id pc)
                then Piece.merge x
                       (Piece.mkPatch None None
                          (Some (snap (snapEnabled s) posX))
                          (Some (snap (snapEnabled s) posY))
                          (Some (snap (snapEnabled s) refWidth))
                          (Some (snap (snapEnabled s) refHeight))
                          None None None None None None)
                else x) arr).

(** ** Loading from storage *)

(** What [JSON.parse(raw) as Project] evaluates to, as far as [loadProject]
    reads it: [null] (reading [data.assets] then throws), or a value whose
    [assets] and [pieces] properties are read, [None] for a property that is
    absent or falsy. *)
Inductive parsed : Type :=
| ParsedNull
| ParsedValue (data_assets : option (list Asset.t)) (data_pieces : option (list Piece.t)).

(** [v || []] *)
Definition orEmpty {A : Type} (v : option (list A)) : list A :=
  match v with Some l => l | None => [] end.

Definition notFound : string := "Geen opgeslagen project gevonden."%string.
Definition loadFailed : string := "Kon project niet laden."%string.

Section Load.
(** [JSON.parse]; [None] when it throws. *)
Variable JSON_parse : string -> option parsed.

(** [loadProject] on the storage [getItem] reads; the result carries the
    messages passed to [alert]. *)
Definition loadProject (getItem : string -> option string) (s : State)
  : State * list string :=
  match getItem PROJECT_KEY with
  | None => (s, [notFound])
  | Some raw =>
      if String.eqb raw EmptyString then (s, [notFound])
      else
        match JSON_parse raw with
        | None => (s, [loadFailed])
        | Some ParsedNull => (s, [loadFailed])
        | Some (ParsedValue data_assets data_pieces) =>
            (s |> setAssets (to (orEmpty data_assets))
               |> setPieces (to (orEmpty data_pieces))
               |> setSelectedId (to None),
             [])
        end
  end.
End Load.

(** ** Sequences of recorded mutations *)

(** The handlers that call [pushHistory], with what each one reads from the
    browser. *)
Inductive Mutation : Type :=
| Upload (uid : nat -> string) (files : option (list File.t))
| AddPiece (canvasRef : option DOMRect.t) (uid : string) (asset : Asset.t)
| Remove
| Duplicate (uid : string)
| Forward
| Backward.

Definition apply (m : Mutation) (s : State) : State :=
  match m with
  | Upload uid files => onUpload uid files s
  | AddPiece canvasRef uid asset => addPieceFromAsset canvasRef uid asset s
  | Remove => removeSelected s
  | Duplicate uid => duplicateSelected uid s
  | Forward => bringForward s
  | Backward => sendBackward s
  end.

Definition isSome {A : Type} (v : option A) : bool :=
  match v with Some _ => true | None => false end.

(** The handler gets past its early [return], hence calls [pushHistory]. *)
Definition enabled (m : Mutation) (s : State) : bool :=
  match m with
  | Upload _ files =>
      match files with
      | None => false
      | Some fl => negb (Nat.eqb (length fl) 0)
      end
  | AddPiece canvasRef _ _ => isSome canvasRef
  | Remove => negb (falsy (selectedId s))
  | Duplicate _ | Forward | Backward => isSome (selectedPiece s)
  end.

Fixpoint run (ms : list Mutation) (s : State) : State :=
  match ms with
  | [] => s
  | m :: rest => run rest (apply m s)
  end.

Fixpoint allEnabled (ms : list Mutation) (s : State) : bool :=
  match ms with
  | [] => true
  | m :: rest => enabled m s && allEnabled rest (apply m s)
  end.

(** [s'] is [s] after [pushHistory] and any change of document and
    selection. *)
Definition recorded (s s' : State) : Prop :=
  history s' = history s ++ [snapshot s] /\ future s' = [].

(** ** Other handlers *)

(** The one-time seeding effect: [setAssets(arr)] with the bundled assets. *)
Definition seedAssets (arr : list Asset.t) (s : State) : State :=
  s |> setAssets (to arr).

(** [onMouseDown], [onDragStart] and [onResizeStart] of the piece [pc]. *)
Definition selectPiece (pc : Piece.t) (s : State) : State :=
  s |> setSelectedId (to (Some (Piece.id pc))).

(** The snap button: [setSnapEnabled((v) => !v)]. *)
Definition toggleSnap (s : State) : State :=
  s |> setSnapEnabled negb.

(** No piece of [ps] carries the identifier [uid]. *)
Definition freshId (uid : string) (ps : list Piece.t) : bool :=
  forallb (fun p => negb (String.eqb (Piece.id p) uid)) ps.

(** ** The stacking height the specification describes *)

(** One more than the largest [z] among the pieces, [1] when there is none;
    to be compared with [nextZ], which the component computes. *)
Definition specNextZ (ps : list Piece.t) : number :=
  match ps with
  | [] => 1
  | p :: rest => fold_left (fun m q => Math_max m (Piece.z q)) rest (Piece.z p) + 1
  end.

(** ** Sample data *)

Definition exAsset : Asset.t :=
  Asset.mk "a1"%string "art1.svg"%string "data:image/svg+xml;base64,AAAA"%string.

Definition exCanvas : DOMRect.t := DOMRect.mk 800 600.

Definition exStart : State := seedAssets [exAsset] initialState.

Definition exOps : list Mutation :=
  [AddPiece (Some exCanvas) "p1"%string exAsset; Duplicate "p2"%string; Forward].

(** Two pieces, the later one moved below the earlier one. *)
Definition exStacked : State :=
  run [AddPiece (Some exCanvas) "p1"%string exAsset; Forward; Forward;
       AddPiece (Some exCanvas) "p2"%string exAsset; Backward; Backward; Backward]
      exStart.

(** One selected piece at (100, 100), 50 by 50, at height 3. *)
Definition exSelected : State :=
  mkState [exAsset]
    [Piece.mk "p1"%string "a1"%string 100 100 50 50 0 100 100 100 100 3]
    (Some "p1"%string) [] [] false false.

(** A parser that knows three stored contents. *)
Definition exParse (raw : string) : option parsed :=
  if String.eqb raw "null"%string then Some ParsedNull
  else if String.eqb raw "{}"%string then Some (ParsedValue None None)
  else if String.eqb raw "saved"%string
       then Some (ParsedValue (Some (assets exStart)) (Some (pieces (run exOps exStart))))
  else None.

Definition exStorage (content : option string) : string -> option string :=
  fun key => if String.eqb key PROJECT_KEY then content else None.

(** ** Saving to storage *)

Definition saved : string := "Project opgeslagen in je browser."%string.

(** [localStorage.setItem(key, value)] on a storage read through
    [getItem]. *)
Definition setItem (getItem : string -> option string) (key value : string)
  : string -> option string :=
  fun k => if String.eqb k key then Some value else getItem k.

Section Save.
(** [JSON.stringify] on a [Project]. *)
Variable JSON_stringify : Project.t -> string.

(** [saveProject]: the storage after the call and the messages passed to
    [alert]; the component state is not written. *)
Definition saveProject (getItem : string -> option string) (s : State)
  : (string -> option string) * list string :=
  let data := Project.mk (assets s) (pieces s) in
  (setItem getItem PROJECT_KEY (JSON_stringify data), [saved]).
End Save.

(** ** What the canvas renders *)

(** The comparator [(a, b) => a.z - b.z]. *)
Definition byZ (a b : Piece.t) : number := Piece.z a - Piece.z b.

(** [Array.prototype.sort(cmp)]: a stable sort; [x] goes before [y] when
    [cmp(x, y) <= 0] and [x] came first.  With a comparator that is a
    difference of keys the sorted array is unique, whatever algorithm the
    engine runs; here it is built by insertion. *)
Fixpoint insertBy {A : Type} (cmp : A -> A -> number) (v : A) (arr : list A)
  : list A :=
  match arr with
  | [] => [v]
  | w :: rest =>
      if Qle_bool (cmp v w) 0 then v :: w :: rest
      else w :: insertBy cmp v rest
  end.

Fixpoint Array_sort {A : Type} (cmp : A -> A -> number) (arr : list A) : list A :=
  match arr with
  | [] => []
  | v :: rest => insertBy cmp v (Array_sort cmp rest)
  end.

(** [assets.find((a) => a.id === pc.assetId)] *)
Definition assetOf (assetList : list Asset.t) (pc : Piece.t) : option Asset.t :=
  find (fun a => String.eqb (Asset.id a) (Piece.assetId pc)) assetList.

Module Rnd.
(** One rendered box: the props of [<Rnd>] and of the [<img>] inside it that
    depend on the state.  [outlined] is the selection outline of [className],
    [hint] the "versleep/resize" label. *)
Record t : Type := mk {
  key : string;
  width : number;
  height : number;
  x : number;
  y : number;
  dragGrid : option (number * number);
  resizeGrid : option (number * number);
  zIndex : number;
  outlined : bool;
  alt : string;
  src : string;
  filter : string;
  opacity : number;
  hint : bool
}.
End Rnd.

(** [pc.id === selectedId] *)
Definition isSelected (s : State) (pc : Piece.t) : bool :=
  match selectedId s with
  | None => false
  | Some sel => String.eqb (Piece.id pc) sel
  end.

Definition setSuppressUI (f : bool -> bool) (s : State) : State :=
  mkState (assets s) (pieces s) (selectedId s) (history s) (future s)
          (f (suppressUI s)) (snapEnabled s).

Module Download.
(** The anchor that is clicked: [a.href] and [a.download]. *)
Record t : Type := mk { href : string; download : string }.
End Download.

Section Render.
(** How a template literal prints a number. *)
Variable String_of_number : number -> string.

Definition filterCss (pc : Piece.t) : string :=
  ("hue-rotate(" ++ String_of_number (Piece.hue pc) ++ "deg) saturate("
   ++ String_of_number (Piece.saturate pc) ++ "%) brightness("
   ++ String_of_number (Piece.brightness pc) ++ "%) contrast("
   ++ String_of_number (Piece.contrast pc) ++ "%)")%string.

(** The body of the [.map] over the sorted pieces; [None] is the [null] a
    piece without asset renders to. *)
Definition renderPiece (s : State) (pc : Piece.t) : option Rnd.t :=
  match assetOf (assets s) pc with
  | None => None
  | Some asset =>
      let grid := if snapEnabled s then Some (gridSize, gridSize) else None in
      Some (Rnd.mk (Piece.id pc) (Piece.width pc) (Piece.height pc)
                   (Piece.x pc) (Piece.y pc) grid grid (Piece.z pc)
                   (negb (suppressUI s) && isSelected s pc)
                   (Asset.name asset) (Asset.dataUrl asset) (filterCss pc)
                   (Piece.opacity pc / 100)
                   (negb (suppressUI s)))
  end.

(** The pieces in drawing order: [pieces.slice().sort((a, b) => a.z - b.z)]. *)
Definition drawingOrder (s : State) : list Piece.t :=
  Array_sort byZ (pieces s).

(** The children of the [piecesRef] element. *)
Definition render (s : State) : list Rnd.t :=
  flat_map (fun pc => match renderPiece s pc with
                      | Some box => [box]
                      | None => []
                      end)
           (drawingOrder s).

(** ** Export *)

(** [toPng] and [toSvg] of html-to-image on the rendered children, [None]
    when the promise rejects. *)
Variable toPng : list Rnd.t -> option string.
Variable toSvg : list Rnd.t -> option string.


End Render.

(** ** Keyboard shortcuts *)

Module KeyboardEvent.
Record t : Type := mk {
  key : string;
  ctrlKey : bool;
  metaKey : bool;
  shiftKey : bool
}.
End KeyboardEvent.

(** [String.prototype.toLowerCase] on the letters A to Z.  The handler
    compares the result with "z", "y" and "d" only, and no other character
    has one of these as its lower-case form. *)
Definition lowerChar (c : Ascii.ascii) : Ascii.ascii :=
  let n := Ascii.nat_of_ascii c in
  if (Nat.leb 65 n && Nat.leb n 90)%bool then Ascii.ascii_of_nat (n + 32) else c.

Fixpoint toLowerCase (str : string) : string :=
  match str with
  | EmptyString => EmptyString
  | String c rest => String (lowerChar c) (toLowerCase rest)
  end.

(** [(e.ctrlKey || e.metaKey) && e.key.toLowerCase() === k] *)
Definition chord (e : KeyboardEvent.t) (k : string) : bool :=
  (KeyboardEvent.ctrlKey e || KeyboardEvent.metaKey e)
  && String.eqb (toLowerCase (KeyboardEvent.key e)) k.

(** The key listener is registered by an effect that runs again only when
    [selectedPiece], [history] or [future] change, so the handlers it calls
    are those of the render the effect last ran in.  Below, [c] is the state
    of that render, which the handler reads as its closure, and [s] the
    current state, to which React applies the queued updater functions. *)
Definition pushHistoryFrom (c s : State) : State :=
  s |> setHistory (fun h => h ++ [snapshot c])
    |> setFuture (to []).

Definition undoFrom (c s : State) : State :=
  match lastElement (history c) with
  | None => s
  | Some prev =>
      s |> setHistory (fun h => slice_0_m1 h)
        |> setFuture (fun f => snapshot c :: f)
        |> setAssets (to (Project.assets prev))
        |> setPieces (to (Project.pieces prev))
  end.

Definition redoFrom (c s : State) : State :=
  match future c with
  | [] => s
  | next :: _ =>
      s |> setFuture (fun f => slice_1 f)
        |> setHistory (fun h => h ++ [snapshot c])
        |> setAssets (to (Project.assets next))
        |> setPieces (to (Project.pieces next))
  end.

Definition removeSelectedFrom (c s : State) : State :=
  match selectedId c with
  | None => s
  | Some sel =>
      if String.eqb sel EmptyString then s
      else
        pushHistoryFrom c s
          |> setPieces (fun p => filter (fun x => negb (String.eqb (Piece.id x) sel)) p)
          |> setSelectedId (to None)
  end.

Definition duplicateSelectedFrom (uid : string) (c s : State) : State :=
  match selectedPiece c with
  | None => s
  | Some sp =>
      let copy := duplicateOf uid sp in
      pushHistoryFrom c s
        |> setPieces (fun p => p ++ [copy])
        |> setSelectedId (to (Some (Piece.id copy)))
  end.

(** [onKey]: the four tests in source order, each handler reading the
    listener's closure [c] and queueing its updates on the current state;
    the boolean tells whether [e.preventDefault()] was called. *)
Definition onKey (uid : string) (e : KeyboardEvent.t) (c s : State) : State * bool :=
  let s1 :=
    if (String.eqb (KeyboardEvent.key e) "Delete"
        || String.eqb (KeyboardEvent.key e) "Backspace")%bool
    then removeSelectedFrom c s else s in
  let '(s2, p2) :=
    if chord e "z"
    then (if KeyboardEvent.shiftKey e then redoFrom c s1 else undoFrom c s1, true)
    else (s1, false) in
  let '(s3, p3) :=
    if chord e "y" then (redoFrom c s2, true) else (s2, p2) in
  if chord e "d" then (duplicateSelectedFrom uid c s3, true) else (s3, p3).

(** [a] is not above [b]. *)
Definition zLe (a b : Piece.t) : Prop := Piece.z a <= Piece.z b.

(** [p] lies at height [v]. *)
Definition atHeight (v : number) (p : Piece.t) : bool := Qeq_bool (Piece.z p) v.

(** The identifier a mutation draws, if it draws one, is carried by no
    piece yet. *)
Definition freshFor (m : Mutation) (s : State) : bool :=
  match m with
  | AddPiece _ uid _ | Duplicate uid => freshId uid (pieces s)
  | _ => true
  end.

(** No piece of [ps] lies above the height [v]. *)
Definition noneAbove (v : number) (ps : list Piece.t) : bool :=
  forallb (fun p => Qle_bool (Piece.z p) v) ps.

(** Every file of the list is read without error. *)
Definition allRead (files : list File.t) : bool :=
  forallb (fun f => isSome (File.read f)) files.

(** ** Pieces and their assets *)

(** Every piece of the document refers to an asset of the document. *)
Definition noOrphans (d : Project.t) : bool :=
  forallb (fun pc => isSome (assetOf (Project.assets d) pc)) (Project.pieces d).

(** The current document and every snapshot on the two stacks are free of
    orphans. *)
Definition consistent (s : State) : bool :=
  noOrphans (snapshot s) && forallb noOrphans (history s)
  && forallb noOrphans (future s).

(** The asset a mutation places, if it places one, is one of the listed
    assets: the thumbnails are rendered from [assets]. *)
Definition fromThumbnail (m : Mutation) (s : State) : Prop :=
  match m with
  | AddPiece _ _ asset => In asset (assets s)
  | _ => True
  end.

(** The document with its past and future, oldest first. *)
Definition timeline (s : State) : list Project.t :=
  history s ++ snapshot s :: future s.

(** ** More sample data *)

Definition exShow (v : number) : string := "0"%string.
Definition exStringify (d : Project.t) : string := "saved"%string.
Definition exFiles : list File.t :=
  [File.mk "a.png"%string (Some "data:a"%string);
   File.mk "b.png"%string (Some "data:b"%string)].
Definition exBadFiles : list File.t :=
  [File.mk "a.png"%string (Some "data:a"%string);
   File.mk "b.png"%string None].
Definition exUid (i : nat) : string :=
  match i with O => "u0"%string | _ => "u1"%string end.
(** A piece placed under the id "i", which is what [uid()] returns when
    [Math.random()] is 0.5: [(0.5).toString(36)] is "0.i". *)
Definition exCollide : State :=
  addPieceFromAsset (Some exCanvas) "i"%string exAsset exStart.

(** The render in which an upload has recorded its snapshot, and the state
    once its assets have arrived; the key listener was last registered in
    the former. *)
Definition exUploading : State := pushHistory exStart.
Definition exUploaded : State := onUpload exUid (Some exFiles) exStart.

Definition exCtrlZ : KeyboardEvent.t := KeyboardEvent.mk "z"%string true false false.
Definition exCtrlShiftZ : KeyboardEvent.t := KeyboardEvent.mk "Z"%string true false true.

(** ** The handlers on the sample data *)

Example exOps_stack :
  map Piece.id (pieces (run exOps exStart)) = ["p1"%string; "p2"%string] /\
  map Piece.z (pieces (run exOps exStart)) = [1; 3] /\
  selectedId (run exOps exStart) = Some "p2"%string /\
  length (history (run exOps exStart)) = 3%nat /\
  future (run exOps exStart) = [].
Proof. repeat split. Qed.

Example exOps_undo_once :
  map Piece.z (pieces (undo (run exOps exStart))) = [1; 2] /\
  length (history (undo (run exOps exStart))) = 2%nat /\
  length (future (undo (run exOps exStart))) = 1%nat.
Proof. repeat split. Qed.

Example exSelected_sendBackward_thrice :
  map Piece.z (pieces (Nat.iter 3 sendBackward exSelected)) = [0] /\
  map Piece.z (pieces (Nat.iter 4 sendBackward exSelected)) = [0].
Proof. split; reflexivity. Qed.

(** ** Properties of the history stacks *)

Lemma lastElement_snoc {A : Type} (l : list A) (a : A) :
  lastElement (l ++ [a]) = Some a.
Proof.
  induction l as [|b l IH]; [reflexivity|].
  simpl. rewrite IH. destruct (l ++ [a]) eqn:E; [|reflexivity].
  destruct l; discriminate.
Qed.

Lemma snoc_cases {A : Type} (l : list A) :
  l = [] \/ exists l' a, l = l' ++ [a].
Proof.
  induction l as [|a l' _] using rev_ind; [left; reflexivity|].
  right. exists l', a. reflexivity.
Qed.

Lemma undo_snoc (s : State) (h : list Project.t) (d : Project.t) :
  history s = h ++ [d] ->
  undo s = mkState (Project.assets d) (Project.pieces d) (selectedId s) h
                   (snapshot s :: future s) (suppressUI s) (snapEnabled s).
Proof.
  intros E. unfold undo. rewrite E, lastElement_snoc.
  unfold setPieces, setAssets, setFuture, setHistory, to, slice_0_m1. simpl.
  rewrite E, removelast_last. reflexivity.
Qed.

Lemma redo_cons (s : State) (d : Project.t) (f : list Project.t) :
  future s = d :: f ->
  redo s = mkState (Project.assets d) (Project.pieces d) (selectedId s)
                   (history s ++ [snapshot s]) f (suppressUI s) (snapEnabled s).
Proof.
  intros E. unfold redo. rewrite E.
  unfold setPieces, setAssets, setFuture, setHistory, to, slice_1. simpl.
  rewrite E. reflexivity.
Qed.

Lemma redo_undo (s : State) : history s <> [] -> redo (undo s) = s.
Proof.
  intros Hne. destruct (snoc_cases (history s)) as [E|[h [d E]]]; [contradiction|].
  rewrite (undo_snoc s h d E).
  erewrite redo_cons by reflexivity.
  destruct s as [a p sel hi fu su sn]. simpl in *. subst hi.
  destruct d as [da dp]. reflexivity.
Qed.

Lemma undo_redo (s : State) : future s <> [] -> undo (redo s) = s.
Proof.
  intros Hne. destruct (future s) as [|d f] eqn:E; [contradiction|].
  rewrite (redo_cons s d f E).
  erewrite undo_snoc by reflexivity.
  destruct s as [a p sel hi fu su sn]. simpl in *. subst fu.
  destruct d as [da dp]. reflexivity.
Qed.

Lemma undo_history_length (s : State) :
  length (history (undo s)) = pred (length (history s)).
Proof.
  destruct (snoc_cases (history s)) as [E|[h [d E]]].
  - unfold undo. rewrite E. simpl. rewrite E. reflexivity.
  - rewrite (undo_snoc s h d E), E. simpl. rewrite length_app. simpl. lia.
Qed.

Lemma iter_undo_history_length (n : nat) (s : State) :
  length (history (Nat.iter n undo s)) = (length (history s) - n)%nat.
Proof.
  induction n as [|n IH]; simpl; [lia|].
  rewrite undo_history_length, IH. lia.
Qed.

Lemma iter_redo_undo (n : nat) (s : State) :
  (n <= length (history s))%nat ->
  Nat.iter n redo (Nat.iter n undo s) = s.
Proof.
  induction n as [|n IH]; intros Hn; [reflexivity|].
  rewrite Nat.iter_succ_r. simpl. rewrite redo_undo.
  - apply IH. lia.
  - intros E. pose proof (iter_undo_history_length n s) as L.
    rewrite E in L. simpl in L. lia.
Qed.

Lemma iter_undo_unwind (l : list Project.t) :
  forall (s : State) (h : list Project.t),
    history s = h ++ l ->
    history (Nat.iter (length l) undo s) = h /\
    snapshot (Nat.iter (length l) undo s) = hd (snapshot s) l.
Proof.
  induction l as [|d l IH] using rev_ind; intros s h E.
  - simpl. rewrite app_nil_r in E. auto.
  - rewrite length_app, Nat.add_comm. simpl length.
    change (1 + length l)%nat with (S (length l)). rewrite Nat.iter_succ_r.
    rewrite app_assoc in E.
    pose proof (undo_snoc s (h ++ l) d E) as U.
    destruct (IH (undo s) h) as [Hh Hs]; [rewrite U; reflexivity|].
    split; [exact Hh|]. rewrite Hs. rewrite U. unfold snapshot, structuredClone. simpl.
    destruct l; destruct d; reflexivity.
Qed.

Lemma enabled_recorded (m : Mutation) (s : State) :
  enabled m s = true -> recorded s (apply m s).
Proof.
  destruct m as [uid files|canvasRef uid asset| |uid| |]; simpl; intros H.
  - destruct files as [[|f fl]|]; try discriminate.
    unfold onUpload. destruct (readFiles uid 0 (f :: fl)); split; reflexivity.
  - destruct canvasRef; [|discriminate]. split; reflexivity.
  - unfold removeSelected. unfold falsy in H. destruct (selectedId s); [|discriminate].
    destruct (String.eqb s0 EmptyString); [discriminate|]. split; reflexivity.
  - unfold duplicateSelected. destruct (selectedPiece s); [|discriminate]. split; reflexivity.
  - unfold bringForward. destruct (selectedPiece s); [|discriminate]. split; reflexivity.
  - unfold sendBackward. destruct (selectedPiece s); [|discriminate]. split; reflexivity.
Qed.

Lemma disabled_noop (m : Mutation) (s : State) :
  enabled m s = false -> apply m s = s.
Proof.
  destruct m as [uid files|canvasRef uid asset| |uid| |]; simpl; intros H.
  - destruct files as [[|f fl]|]; try discriminate; reflexivity.
  - destruct canvasRef; [discriminate|reflexivity].
  - unfold removeSelected. unfold falsy in H. destruct (selectedId s); [|reflexivity].
    destruct (String.eqb s0 EmptyString); [reflexivity|discriminate].
  - unfold duplicateSelected. destruct (selectedPiece s); [discriminate|reflexivity].
  - unfold bringForward. destruct (selectedPiece s); [discriminate|reflexivity].
  - unfold sendBackward. destruct (selectedPiece s); [discriminate|reflexivity].
Qed.

Lemma run_history (ms : list Mutation) :
  forall s : State,
    allEnabled ms s = true ->
    exists snaps : list Project.t,
      history (run ms s) = history s ++ snaps /\
      length snaps = length ms /\
      hd (snapshot (run ms s)) snaps = snapshot s.
Proof.
  induction ms as [|m ms IH]; intros s H.
  - exists []. simpl. rewrite app_nil_r. auto.
  - simpl in H. apply andb_true_iff in H. destruct H as [Hm Hms].
    destruct (IH _ Hms) as [snaps [Hh [Hl _]]].
    destruct (enabled_recorded m s Hm) as [Hr _].
    exists (snapshot s :: snaps). simpl. rewrite Hh, Hr, <- app_assoc.
    repeat split; simpl; congruence.
Qed.

(** ** Undo and redo *)

(** C1. After any sequence of mutations that each record a snapshot, as many
    [undo] calls as there were mutations bring back the assets and pieces
    (and the history stack) the sequence started from, and as many [redo]
    calls after that bring back the whole state the sequence ended in:
    document, history, future and selection. *)
Theorem undo_all_then_redo_all (s : State) (ms : list Mutation) :
  allEnabled ms s = true ->
  let s' := run ms s in
  let n := length ms in
  assets (Nat.iter n undo s') = assets s /\
  pieces (Nat.iter n undo s') = pieces s /\
  history (Nat.iter n undo s') = history s /\
  Nat.iter n redo (Nat.iter n undo s') = s' /\
  future (Nat.iter n redo (Nat.iter n undo s')) = future s'.
Proof.
  intros H s' n.
  destruct (run_history ms s H) as [snaps [Hh [Hl Hd]]].
  fold s' in Hh, Hd. subst n. rewrite <- Hl.
  destruct (iter_undo_unwind snaps s' (history s) Hh) as [Uh Us].
  rewrite Hd in Us. unfold snapshot, structuredClone in Us.
  injection Us as Ua Up.
  assert (R : Nat.iter (length snaps) redo (Nat.iter (length snaps) undo s') = s').
  { apply iter_redo_undo. rewrite Hh, length_app. lia. }
  rewrite R. auto.
Qed.

Lemma undo_all_then_redo_all_witness :
  allEnabled exOps exStart = true /\
  assets (Nat.iter 3 undo (run exOps exStart)) = assets exStart /\
  pieces (Nat.iter 3 undo (run exOps exStart)) = [] /\
  Nat.iter 3 redo (Nat.iter 3 undo (run exOps exStart)) = run exOps exStart.
Proof.
  pose proof (undo_all_then_redo_all exStart exOps eq_refl) as [Ha [Hp [_ [Hr _]]]].
  split; [reflexivity|]. split; [exact Ha|]. split; [exact Hp|exact Hr].
Defined.

(** C2. A mutation that records a snapshot leaves the future stack empty,
    whatever earlier [undo] calls had put there, so [redo] right after it
    changes nothing; after one more [undo] the future stack is non-empty
    again and [redo] returns to the state the mutation produced. *)
Theorem mutation_clears_future (s : State) (m : Mutation) :
  enabled m s = true ->
  future (apply m s) = [] /\
  redo (apply m s) = apply m s /\
  future (undo (apply m s)) <> [] /\
  redo (undo (apply m s)) = apply m s.
Proof.
  intros H. destruct (enabled_recorded m s H) as [Hh Hf].
  split; [exact Hf|]. split.
  - unfold redo. rewrite Hf. reflexivity.
  - rewrite (undo_snoc _ _ _ Hh). split; [discriminate|].
    rewrite <- (undo_snoc _ _ _ Hh). apply redo_undo.
    rewrite Hh. destruct (history s); discriminate.
Qed.

Lemma mutation_clears_future_witness :
  future (undo (run exOps exStart)) <> [] /\
  future (apply Backward (undo (run exOps exStart))) = [] /\
  redo (apply Backward (undo (run exOps exStart)))
  = apply Backward (undo (run exOps exStart)).
Proof.
  pose proof (mutation_clears_future (undo (run exOps exStart)) Backward eq_refl)
    as [Hf [Hr _]].
  split; [discriminate|]. split; [exact Hf|exact Hr].
Defined.

(** C3. [undo] on an empty history stack and [redo] on an empty future stack
    return the state they were given: assets, pieces, both stacks and the
    selection are unchanged. *)
Theorem undo_redo_empty_noop (s : State) :
  (history s = [] -> undo s = s) /\ (future s = [] -> redo s = s).
Proof.
  split; intros E.
  - unfold undo. rewrite E. reflexivity.
  - unfold redo. rewrite E. reflexivity.
Qed.

Lemma undo_redo_empty_noop_witness :
  undo exStart = exStart /\ redo exStart = exStart.
Proof.
  destruct (undo_redo_empty_noop exStart) as [U R].
  split; [apply U|apply R]; reflexivity.
Defined.

(** ** The selected-piece lookup *)

Lemma find_hasId_absent (sel : string) (ps : list Piece.t) :
  (forall p, In p ps -> Piece.id p <> sel) ->
  find (fun p => String.eqb (Piece.id p) sel) ps = None.
Proof.
  induction ps as [|a ps IH]; intros H; [reflexivity|].
  simpl. destruct (String.eqb_spec (Piece.id a) sel) as [E|_].
  - exfalso. apply (H a); [left; reflexivity|exact E].
  - apply IH. intros p Hp. apply H. right. exact Hp.
Qed.

Lemma find_hasId_snoc (sel : string) (ps : list Piece.t) (c : Piece.t) :
  (forall p, In p ps -> Piece.id p <> sel) ->
  Piece.id c = sel ->
  find (fun p => String.eqb (Piece.id p) sel) (ps ++ [c]) = Some c.
Proof.
  induction ps as [|a ps IH]; intros H Hc.
  - simpl. rewrite Hc, String.eqb_refl. reflexivity.
  - simpl. destruct (String.eqb_spec (Piece.id a) sel) as [E|_].
    + exfalso. apply (H a); [left; reflexivity|exact E].
    + apply IH; [|exact Hc]. intros p Hp. apply H. right. exact Hp.
Qed.

Lemma find_hasId_map (sel : string) (g : Piece.t -> Piece.t) (sp : Piece.t) :
  (forall p, Piece.id (g p) = Piece.id p) ->
  forall ps : list Piece.t,
    find (fun p => String.eqb (Piece.id p) sel) ps = Some sp ->
    find (fun p => String.eqb (Piece.id p) sel)
         (map (fun p => if String.eqb (Piece.id p) (Piece.id sp) then g p else p) ps)
    = Some (g sp).
Proof.
  intros Hg ps. induction ps as [|a ps IH]; intros H; [discriminate|].
  assert (Hsel : Piece.id sp = sel).
  { apply find_some in H. apply String.eqb_eq. exact (proj2 H). }
  simpl in H. simpl map.
  destruct (String.eqb_spec (Piece.id a) sel) as [E|N].
  - injection H as <-. rewrite String.eqb_refl. simpl.
    rewrite Hg, E, String.eqb_refl. reflexivity.
  - destruct (String.eqb_spec (Piece.id a) (Piece.id sp)) as [E'|_]; [congruence|].
    simpl. destruct (String.eqb_spec (Piece.id a) sel) as [E|_]; [contradiction|].
    apply IH. exact H.
Qed.

Lemma freshId_spec (uid : string) (ps : list Piece.t) :
  freshId uid ps = true -> forall p, In p ps -> Piece.id p <> uid.
Proof.
  unfold freshId. rewrite forallb_forall. intros H p Hp E.
  specialize (H p Hp). rewrite E, String.eqb_refl in H. discriminate.
Qed.

Lemma selectedPiece_in (s : State) (sp : Piece.t) :
  selectedPiece s = Some sp ->
  In sp (pieces s) /\ selectedId s = Some (Piece.id sp).
Proof.
  unfold selectedPiece. destruct (selectedId s) as [sel|]; [|discriminate].
  intros H. apply find_some in H. destruct H as [Hin He].
  apply String.eqb_eq in He. subst sel. auto.
Qed.

Lemma selectedPiece_dangling (s : State) (sel : string) :
  selectedId s = Some sel ->
  (forall p, In p (pieces s) -> Piece.id p <> sel) ->
  selectedPiece s = None.
Proof.
  intros E H. unfold selectedPiece. rewrite E. apply find_hasId_absent. exact H.
Qed.

(** With a selection that names no piece, [removeSelected] still records a
    snapshot, although it removes nothing. *)
Remark removeSelected_dangling :
  let s := exStart |> setSelectedId (to (Some "gone"%string)) in
  selectedPiece s = None /\
  pieces (removeSelected s) = pieces s /\
  history (removeSelected s) = [snapshot s].
Proof. repeat split. Qed.

(** C9. A snapshot holds assets and pieces only, so it is the same whatever
    the selection is; [undo] and [redo] leave [selectedId] as it was; and when
    [selectedId] names no piece of the document, the selected-piece lookup
    yields none, so that the handlers guarded by it (duplicate, bring
    forward, send backward, update) do nothing. *)
Theorem selection_outside_history (s : State) :
  (forall f, snapshot (setSelectedId f s) = snapshot s) /\
  selectedId (undo s) = selectedId s /\
  selectedId (redo s) = selectedId s /\
  (forall sel,
     selectedId s = Some sel ->
     (forall p, In p (pieces s) -> Piece.id p <> sel) ->
     selectedPiece s = None /\
     (forall uid, duplicateSelected uid s = s) /\
     bringForward s = s /\
     sendBackward s = s /\
     (forall d, updateSelected d s = s)).
Proof.
  split; [reflexivity|]. split; [|split].
  - unfold undo. destruct (lastElement (history s)); reflexivity.
  - unfold redo. destruct (future s); reflexivity.
  - intros sel E H. pose proof (selectedPiece_dangling s sel E H) as N.
    unfold duplicateSelected, bringForward, sendBackward, updateSelected.
    rewrite N. auto.
Qed.

Lemma selection_outside_history_witness :
  let s := undo (run exOps exStart |> setSelectedId (to (Some "p2"%string))) in
  let s1 := undo s in
  selectedId s1 = Some "p2"%string /\ selectedPiece s1 = None /\ bringForward s1 = s1.
Proof.
  intros s s1.
  destruct (selection_outside_history s) as [_ [U _]].
  destruct (selection_outside_history s1) as [_ [_ [_ D]]].
  destruct (D "p2"%string) as [N [_ [B _]]].
  - reflexivity.
  - apply freshId_spec. vm_compute. reflexivity.
  - split; [exact U|]. split; [exact N|exact B].
Defined.

(** ** Placing, duplicating and restacking pieces *)

Lemma nextZ_cases (ps : list Piece.t) :
  nextZ ps = match lastElement ps with
             | Some l => Piece.z l + 1
             | None => 1
             end.
Proof. unfold nextZ. destruct (lastElement ps); reflexivity. Qed.

Lemma defaultSize_smaller (rect : DOMRect.t) :
  (defaultSize rect == (3 # 10) * DOMRect.width rect /\
   DOMRect.width rect <= DOMRect.height rect) \/
  (defaultSize rect == (3 # 10) * DOMRect.height rect /\
   DOMRect.height rect <= DOMRect.width rect).
Proof.
  unfold defaultSize, Math_min.
  destruct (Q.min_spec (DOMRect.width rect) (DOMRect.height rect)) as [[Hlt E]|[Hle E]].
  - left. rewrite E. split; [ring|apply Qlt_le_weak; exact Hlt].
  - right. rewrite E. split; [ring|exact Hle].
Qed.

(** Where the last piece is also the highest one, [nextZ] is the height the
    specification describes. *)
Example nextZ_on_sorted_stack :
  nextZ (pieces (run exOps exStart)) == specNextZ (pieces (run exOps exStart)).
Proof. reflexivity. Qed.

(** C4, as the specification words it, fails: with pieces at heights 3 and 1,
    in that order, a newly placed piece gets height 2, not 4. *)
Lemma addPiece_below_highest :
  let s' := addPieceFromAsset (Some exCanvas) "p3"%string exAsset exStacked in
  map Piece.z (pieces exStacked) = [3; 1] /\
  map Piece.z (pieces s') = [3; 1; 2] /\
  specNextZ (pieces exStacked) = 4 /\
  ~ (forall np, lastElement (pieces s') = Some np ->
                Piece.z np == specNextZ (pieces exStacked)).
Proof.
  repeat split. intros H. specialize (H _ eq_refl). discriminate H.
Qed.

(** C4, amended. With a mounted canvas, placing a piece from an asset appends
    one piece, centred in the canvas, as wide and as high as 30% of the
    smaller canvas dimension, its [z] one more than the [z] of the last piece
    of the list (1 when the list is empty); a snapshot is recorded and
    [selectedId] becomes the new id, which the selected-piece lookup resolves
    to the new piece when no other piece carries that id.  Without a canvas
    the state is returned unchanged. *)
Theorem addPieceFromAsset_places (s : State) (rect : DOMRect.t) (uid : string)
  (asset : Asset.t) :
  let s' := addPieceFromAsset (Some rect) uid asset s in
  (exists np : Piece.t,
     pieces s' = pieces s ++ [np] /\
     Piece.x np + Piece.width np / 2 == DOMRect.width rect / 2 /\
     Piece.y np + Piece.height np / 2 == DOMRect.height rect / 2 /\
     Piece.width np == (3 # 10) * Math_min (DOMRect.width rect) (DOMRect.height rect) /\
     Piece.height np == (3 # 10) * Math_min (DOMRect.width rect) (DOMRect.height rect) /\
     Piece.z np = match lastElement (pieces s) with
                  | Some l => Piece.z l + 1
                  | None => 1
                  end /\
     selectedId s' = Some (Piece.id np) /\
     (freshId uid (pieces s) = true -> selectedPiece s' = Some np)) /\
  assets s' = assets s /\
  history s' = history s ++ [snapshot s] /\
  future s' = [] /\
  addPieceFromAsset None uid asset s = s.
Proof.
  intros s'. split; [|repeat split].
  exists (newPiece rect uid asset (pieces s)).
  split; [reflexivity|]. simpl.
  split; [field|]. split; [field|].
  split; [unfold defaultSize; ring|]. split; [unfold defaultSize; ring|].
  split; [apply nextZ_cases|]. split; [reflexivity|].
  intros Hfresh. unfold selectedPiece. simpl.
  apply find_hasId_snoc; [apply freshId_spec; exact Hfresh|reflexivity].
Qed.

Lemma addPieceFromAsset_places_witness :
  exists np : Piece.t,
    selectedPiece (addPieceFromAsset (Some exCanvas) "p3"%string exAsset exStacked) = Some np /\
    Piece.x np + Piece.width np / 2 == DOMRect.width exCanvas / 2 /\
    Piece.z np = 2.
Proof.
  destruct (addPieceFromAsset_places exStacked exCanvas "p3"%string exAsset)
    as [[np [_ [Hx [_ [_ [_ [Hz [_ Hsel]]]]]]]] _].
  exists np. split; [apply Hsel; vm_compute; reflexivity|].
  split; [exact Hx|]. rewrite Hz. vm_compute. reflexivity.
Defined.

(** C10. The piece placed from an asset starts with hue 0, saturation 100,
    brightness 100, contrast 100 and opacity 100, and its [assetId] is the id
    of that asset. *)
Theorem addPieceFromAsset_defaults (s : State) (rect : DOMRect.t) (uid : string)
  (asset : Asset.t) :
  exists np : Piece.t,
    pieces (addPieceFromAsset (Some rect) uid asset s) = pieces s ++ [np] /\
    Piece.hue np = 0 /\
    Piece.saturate np = 100 /\
    Piece.brightness np = 100 /\
    Piece.contrast np = 100 /\
    Piece.opacity np = 100 /\
    Piece.assetId np = Asset.id asset.
Proof.
  exists (newPiece rect uid asset (pieces s)). repeat split.
Qed.

Lemma find_app_found {A : Type} (f : A -> bool) (l l' : list A) (a : A) :
  find f l = Some a -> find f (l ++ l') = Some a.
Proof.
  induction l as [|b l IH]; [discriminate|].
  simpl. destruct (f b); [auto|exact IH].
Qed.

(** C5, as the specification words it, fails when [uid()] draws the id of the
    selected piece again ([Math.random()] returning 0.5 twice): the copy then
    carries the same id as the original, and the selected-piece lookup yields
    the original, not the copy. *)
Lemma duplicate_id_collision :
  let s' := duplicateSelected "i"%string exCollide in
  map Piece.id (pieces exCollide) = ["i"%string] /\
  map Piece.id (pieces s') = ["i"%string; "i"%string] /\
  selectedPiece s' = selectedPiece exCollide /\
  ~ (forall sp copy,
       selectedPiece exCollide = Some sp ->
       lastElement (pieces s') = Some copy ->
       Piece.id copy <> Piece.id sp /\ selectedPiece s' = Some copy).
Proof.
  repeat split. intros H.
  destruct (H _ _ eq_refl eq_refl) as [Hne _]. apply Hne. reflexivity.
Qed.

(** C5, amended. With a piece selected, duplicating appends one piece whose
    id is the identifier [uid()] draws, with x and y 20 further, z one higher
    and every other field copied; the pieces already there keep their place
    and content, the lookup of the original's id still yields the original, a
    snapshot is recorded, and [selectedId] becomes the id of the copy.  When
    the drawn identifier is carried by no piece yet, the copy has a different
    id from the original and is what the selected-piece lookup returns.  With
    no piece selected the state is returned unchanged, so no history entry is
    pushed. *)
Theorem duplicateSelected_clones (s : State) (uid : string) :
  (forall sp : Piece.t,
     selectedPiece s = Some sp ->
     let s' := duplicateSelected uid s in
     exists copy : Piece.t,
       pieces s' = pieces s ++ [copy] /\
       Piece.id copy = uid /\
       Piece.x copy = Piece.x sp + 20 /\
       Piece.y copy = Piece.y sp + 20 /\
       Piece.z copy = Piece.z sp + 1 /\
       Piece.assetId copy = Piece.assetId sp /\
       Piece.width copy = Piece.width sp /\
       Piece.height copy = Piece.height sp /\
       Piece.hue copy = Piece.hue sp /\
       Piece.saturate copy = Piece.saturate sp /\
       Piece.brightness copy = Piece.brightness sp /\
       Piece.contrast copy = Piece.contrast sp /\
       Piece.opacity copy = Piece.opacity sp /\
       find (fun p => String.eqb (Piece.id p) (Piece.id sp)) (pieces s') = Some sp /\
       selectedId s' = Some (Piece.id copy) /\
       history s' = history s ++ [snapshot s] /\
       (freshId uid (pieces s) = true ->
        Piece.id copy <> Piece.id sp /\ selectedPiece s' = Some copy)) /\
  (selectedPiece s = None -> duplicateSelected uid s = s).
Proof.
  split.
  - intros sp Hsel s'. exists (duplicateOf uid sp).
    pose proof (selectedPiece_in s sp Hsel) as [Hin Hid].
    assert (Hp : pieces s' = pieces s ++ [duplicateOf uid sp]).
    { unfold s', duplicateSelected. rewrite Hsel. reflexivity. }
    split; [exact Hp|].
    do 12 (split; [reflexivity|]).
    split; [|split; [|split]].
    + rewrite Hp. apply find_app_found.
      unfold selectedPiece in Hsel. rewrite Hid in Hsel. exact Hsel.
    + unfold s', duplicateSelected. rewrite Hsel. reflexivity.
    + unfold s', duplicateSelected. rewrite Hsel. reflexivity.
    + intros Hfresh.
      pose proof (freshId_spec uid (pieces s) Hfresh) as Hne.
      split; [simpl; intros E; apply (Hne sp Hin); symmetry; exact E|].
      unfold selectedPiece.
      replace (selectedId s') with (Some uid)
        by (unfold s', duplicateSelected; rewrite Hsel; reflexivity).
      rewrite Hp. apply find_hasId_snoc; [exact Hne|reflexivity].
  - intros Hnone. unfold duplicateSelected. rewrite Hnone. reflexivity.
Qed.

Lemma duplicateSelected_clones_witness :
  exists copy : Piece.t,
    selectedPiece (duplicateSelected "p2"%string exSelected) = Some copy /\
    Piece.id copy <> "p1"%string /\
    Piece.x copy = 120 /\ Piece.y copy = 120 /\ Piece.z copy = 4 /\
    Piece.width copy = 50 /\ Piece.height copy = 50.
Proof.
  destruct (duplicateSelected_clones exSelected "p2"%string) as [D _].
  destruct (D _ eq_refl)
    as (copy & _ & _ & Hx & Hy & Hz & _ & Hw & Hh & _ & _ & _ & _ & _ & _ & _ & _ & Hfresh).
  destruct (Hfresh eq_refl) as [Hid Hsel].
  exists copy. split; [exact Hsel|]. split; [exact Hid|].
  split; [exact Hx|]. split; [exact Hy|]. split; [exact Hz|].
  split; [exact Hw|exact Hh].
Defined.

Lemma lastElement_In {A : Type} (l : list A) (a : A) :
  lastElement l = Some a -> In a l.
Proof.
  induction l as [|b l IH]; [discriminate|].
  simpl. destruct l as [|c l].
  - intros E. injection E as <-. left. reflexivity.
  - intros E. right. apply IH. exact E.
Qed.

(** Every handler that records a snapshot keeps all [z] values
    non-negative. *)
Lemma mutation_keeps_z_nonneg (s : State) (m : Mutation) :
  (forall p, In p (pieces s) -> 0 <= Piece.z p) ->
  forall p, In p (pieces (apply m s)) -> 0 <= Piece.z p.
Proof.
  intros Inv p.
  destruct m as [uid files|canvasRef uid asset| |uid| |]; simpl.
  - unfold onUpload. destruct files as [[|f fl]|]; try apply Inv.
    destruct (readFiles uid 0 (f :: fl)); apply Inv.
  - destruct canvasRef as [rect|]; [|apply Inv]. simpl.
    intros H. apply in_app_or in H. destruct H as [H|[<-|[]]]; [apply Inv; exact H|].
    simpl. unfold nextZ. destruct (lastElement (pieces s)) as [l|] eqn:E.
    + apply lastElement_In in E. specialize (Inv l E). lra.
    + lra.
  - unfold removeSelected. destruct (selectedId s) as [sel|]; [|apply Inv].
    destruct (String.eqb sel EmptyString); [apply Inv|]. simpl.
    intros H. apply filter_In in H. apply Inv. exact (proj1 H).
  - unfold duplicateSelected. destruct (selectedPiece s) as [sp|] eqn:E; [|apply Inv].
    simpl. intros H. apply in_app_or in H. destruct H as [H|[<-|[]]]; [apply Inv; exact H|].
    simpl. apply selectedPiece_in in E. specialize (Inv sp (proj1 E)). lra.
  - unfold bringForward. destruct (selectedPiece s) as [sp|]; [|apply Inv].
    simpl. intros H. apply in_map_iff in H. destruct H as [q [<- Hq]].
    specialize (Inv q Hq). destruct (String.eqb (Piece.id q) (Piece.id sp)); simpl; lra.
  - unfold sendBackward. destruct (selectedPiece s) as [sp|]; [|apply Inv].
    simpl. intros H. apply in_map_iff in H. destruct H as [q [<- Hq]].
    specialize (Inv q Hq). destruct (String.eqb (Piece.id q) (Piece.id sp)); simpl;
      [apply Q.le_max_l|exact Inv].
Qed.

Lemma selectedPiece_bringForward (s : State) (sp : Piece.t) :
  selectedPiece s = Some sp ->
  selectedPiece (bringForward s) = Some (Piece.with_z sp (Piece.z sp + 1)).
Proof.
  intros H. unfold bringForward. rewrite H.
  unfold selectedPiece in *. simpl. destruct (selectedId s) as [sel|]; [|discriminate].
  apply (find_hasId_map sel (fun x => Piece.with_z x (Piece.z x + 1)) sp); auto.
Qed.

Lemma selectedPiece_sendBackward (s : State) (sp : Piece.t) :
  selectedPiece s = Some sp ->
  selectedPiece (sendBackward s)
  = Some (Piece.with_z sp (Math_max 0 (Piece.z sp - 1))).
Proof.
  intros H. unfold sendBackward. rewrite H.
  unfold selectedPiece in *. simpl. destruct (selectedId s) as [sel|]; [|discriminate].
  apply (find_hasId_map sel (fun x => Piece.with_z x (Math_max 0 (Piece.z x - 1))) sp); auto.
Qed.

(** C6. For the selected piece, bring-forward adds 1 to its [z] and
    send-backward sets it to [max(0, z - 1)]; the result of send-backward is
    never negative, a piece at 0 stays at 0, and bring-forward followed by
    send-backward returns a piece with non-negative [z] (one at 2, say) to the
    [z] it had.  No handler that records a snapshot makes a [z] negative. *)
Theorem z_order_steps (s : State) (sp : Piece.t) :
  selectedPiece s = Some sp ->
  selectedPiece (bringForward s) = Some (Piece.with_z sp (Piece.z sp + 1)) /\
  selectedPiece (sendBackward s) = Some (Piece.with_z sp (Math_max 0 (Piece.z sp - 1))) /\
  0 <= Math_max 0 (Piece.z sp - 1) /\
  (Piece.z sp == 0 -> Math_max 0 (Piece.z sp - 1) == 0) /\
  (exists back : Piece.t,
     selectedPiece (sendBackward (bringForward s)) = Some back /\
     (0 <= Piece.z sp -> Piece.z back == Piece.z sp) /\
     (Piece.z sp == 2 -> Piece.z back == 2)) /\
  ((forall p, In p (pieces s) -> 0 <= Piece.z p) ->
   forall m p, In p (pieces (apply m s)) -> 0 <= Piece.z p).
Proof.
  intros H.
  split; [apply selectedPiece_bringForward; exact H|].
  split; [apply selectedPiece_sendBackward; exact H|].
  split; [apply Q.le_max_l|].
  split.
  { intros E. unfold Math_max. apply Q.max_l. rewrite E. discriminate. }
  split.
  - exists (Piece.with_z sp (Math_max 0 (Piece.z sp + 1 - 1))).
    split.
    + apply selectedPiece_bringForward in H.
      apply selectedPiece_sendBackward in H. exact H.
    + assert (R : 0 <= Piece.z sp ->
                  Math_max 0 (Piece.z sp + 1 - 1) == Piece.z sp).
      { intros Hz. unfold Math_max. rewrite Q.max_r; [ring|lra]. }
      simpl. split; [exact R|]. intros E. rewrite R; [exact E|]. rewrite E. discriminate.
  - intros Inv m p. apply mutation_keeps_z_nonneg. exact Inv.
Qed.

Lemma z_order_steps_witness :
  selectedPiece (bringForward exSelected)
  = Some (Piece.mk "p1"%string "a1"%string 100 100 50 50 0 100 100 100 100 4) /\
  selectedPiece (sendBackward exSelected)
  = Some (Piece.mk "p1"%string "a1"%string 100 100 50 50 0 100 100 100 100 2).
Proof.
  destruct (z_order_steps exSelected _ eq_refl) as [F [B _]].
  split; [exact F|exact B].
Defined.

(** ** The snap transform *)

Lemma snap_on_grid (v : number) :
  snap true v = inject_Z (Qfloor (v / gridSize + (1 # 2)) * 24).
Proof. reflexivity. Qed.

Lemma Math_round_grid (k : Z) :
  Math_round (inject_Z (k * 24) / gridSize) = inject_Z k.
Proof.
  unfold Math_round. f_equal.
  unfold Qfloor, Qdiv, Qmult, Qplus, Qinv, gridSize, inject_Z. simpl.
  symmetry. apply Z.div_unique with (r := 24%Z); lia.
Qed.

Lemma Math_round_bounds (x : number) :
  x - (1 # 2) < Math_round x /\ Math_round x <= x + (1 # 2).
Proof.
  unfold Math_round. split.
  - pose proof (Qlt_floor (x + (1 # 2))) as H.
    rewrite inject_Z_plus in H. change (inject_Z 1) with 1 in H. lra.
  - apply Qfloor_le.
Qed.

Lemma inject_Z_gap (k m : Z) :
  (m < k)%Z -> inject_Z m <= inject_Z k - 1.
Proof.
  intros H. assert (L : (m <= k - 1)%Z) by lia.
  rewrite Zle_Qle in L. unfold Z.sub in L.
  rewrite inject_Z_plus, inject_Z_opp in L.
  change (inject_Z 1) with 1 in L. lra.
Qed.

Lemma snap_nearest (v : number) (m : Z) :
  Qabs (snap true v - v) <= Qabs (inject_Z m * gridSize - v).
Proof.
  unfold snap, gridSize.
  pose proof (Math_round_bounds (v / 24)) as [Hlo Hhi].
  unfold Math_round in *.
  set (k := Qfloor (v / 24 + (1 # 2))) in *. clearbody k.
  unfold Qdiv in Hlo, Hhi. change (/ 24) with (1 # 24) in Hlo, Hhi.
  assert (C : (m < k)%Z \/ m = k \/ (k < m)%Z) by lia.
  destruct C as [C|[C|C]].
  - apply inject_Z_gap in C.
    apply Qabs_case; intros ?; apply Qabs_case; intros ?; lra.
  - subst m. apply Qle_refl.
  - apply inject_Z_gap in C.
    apply Qabs_case; intros ?; apply Qabs_case; intros ?; lra.
Qed.

(** C7. With snapping off the transform returns its argument.  With snapping
    on it returns 24 times an integer, no multiple of 24 is closer to the
    argument than the result, and the result has a zero remainder modulo 24.
    In both modes applying it twice gives what applying it once gives. *)
Theorem snap_spec (v : number) :
  snap false v = v /\
  (exists k : Z,
     snap true v = inject_Z (k * 24) /\
     (k * 24 mod 24 = 0)%Z /\
     forall m : Z, Qabs (snap true v - v) <= Qabs (inject_Z m * 24 - v)) /\
  (forall enabled : bool, snap enabled (snap enabled v) = snap enabled v).
Proof.
  split; [reflexivity|]. split.
  - exists (Qfloor (v / gridSize + (1 # 2))).
    split; [apply snap_on_grid|]. split; [apply Z.mod_mul; discriminate|].
    apply snap_nearest.
  - intros [|]; [|reflexivity].
    rewrite (snap_on_grid v).
    set (k := Qfloor (v / gridSize + (1 # 2))).
    unfold snap. rewrite Math_round_grid. reflexivity.
Qed.

(** Ties go up: 12 lies midway between 0 and 24 and snaps to 24. *)
Example snap_examples :
  snap true 12 = 24 /\ snap true (-12) = 0 /\ snap true (47 # 4) = 0 /\
  snap true 100 = 96 /\ snap false (47 # 4) = 47 # 4.
Proof. repeat split. Qed.

(** ** Loading *)

(** C8. [loadProject] either alerts and returns the state it was given, or
    raises no alert and puts the stored assets and pieces (an absent field
    reading as the empty list) in place of the current ones, clears the
    selection and keeps the rest.  It fails in the first way when the key is
    absent or the content does not parse, and also when the content is empty
    or parses to [null]; it succeeds whenever the content is non-empty and
    parses to a value other than [null]. *)
Theorem loadProject_atomic (JSON_parse : string -> option parsed)
  (getItem : string -> option string) (s : State) :
  let r := loadProject JSON_parse getItem s in
  ((exists msg, snd r = [msg]) /\ fst r = s
   \/
   snd r = [] /\
   exists raw a p,
     getItem PROJECT_KEY = Some raw /\
     JSON_parse raw = Some (ParsedValue a p) /\
     fst r = mkState (orEmpty a) (orEmpty p) None (history s) (future s)
                     (suppressUI s) (snapEnabled s)) /\
  (getItem PROJECT_KEY = None \/
   (exists raw, getItem PROJECT_KEY = Some raw /\
                (JSON_parse raw = None \/ JSON_parse raw = Some ParsedNull)) ->
   snd r <> [] /\ fst r = s) /\
  (forall raw a p,
     getItem PROJECT_KEY = Some raw ->
     raw <> EmptyString ->
     JSON_parse raw = Some (ParsedValue a p) ->
     snd r = [] /\
     assets (fst r) = orEmpty a /\
     pieces (fst r) = orEmpty p /\
     selectedId (fst r) = None).
Proof.
  intros r. subst r. unfold loadProject.
  destruct (getItem PROJECT_KEY) as [raw|] eqn:G.
  2:{ split; [left; split; [eexists|]; reflexivity|].
      split; [intros _; split; [discriminate|reflexivity]|].
      intros raw a p E. discriminate. }
  destruct (String.eqb_spec raw EmptyString) as [E|N].
  { split; [left; split; [eexists|]; reflexivity|].
    split; [intros _; split; [discriminate|reflexivity]|].
    intros raw' a p E' N'. congruence. }
  destruct (JSON_parse raw) as [[|a p]|] eqn:P.
  - split; [left; split; [eexists|]; reflexivity|].
    split; [intros _; split; [discriminate|reflexivity]|].
    intros raw' a p E' _ P'. congruence.
  - split; [right; split; [reflexivity|]; exists raw, a, p; auto|].
    split.
    + intros [F|[raw' [E' [F|F]]]]; congruence.
    + intros raw' a' p' E' _ P'. assert (raw' = raw) by congruence. subst raw'.
      rewrite P in P'. injection P' as <- <-. auto.
  - split; [left; split; [eexists|]; reflexivity|].
    split; [intros _; split; [discriminate|reflexivity]|].
    intros raw' a p E' _ P'. congruence.
Qed.

Lemma loadProject_atomic_witness :
  let s := run exOps exStart in
  (snd (loadProject exParse (exStorage None) s) <> [] /\
   fst (loadProject exParse (exStorage None) s) = s) /\
  (snd (loadProject exParse (exStorage (Some "{oops"%string)) s) <> [] /\
   fst (loadProject exParse (exStorage (Some "{oops"%string)) s) = s) /\
  (snd (loadProject exParse (exStorage (Some "saved"%string)) s) = [] /\
   pieces (fst (loadProject exParse (exStorage (Some "saved"%string)) s)) = pieces s /\
   selectedId (fst (loadProject exParse (exStorage (Some "saved"%string)) s)) = None).
Proof.
  intros s. split; [|split].
  - apply (loadProject_atomic exParse (exStorage None) s). left. reflexivity.
  - apply (loadProject_atomic exParse (exStorage (Some "{oops"%string)) s).
    right. exists "{oops"%string. split; [reflexivity|left; reflexivity].
  - destruct (loadProject_atomic exParse (exStorage (Some "saved"%string)) s)
      as [_ [_ L]].
    destruct (L "saved"%string (Some (assets exStart)) (Some (pieces s)))
      as [Hm [_ [Hp Hs]]]; [reflexivity|discriminate|reflexivity|].
    split; [exact Hm|]. split; [exact Hp|exact Hs].
Defined.


(** ** Further properties of the history stacks *)

(** X1. [undo] and [redo] are inverse to each other: with a non-empty history
    [redo] after [undo] gives back the state, and with a non-empty future
    [undo] after [redo] does. *)
Theorem undo_redo_inverse (s : State) :
  (history s <> [] -> redo (undo s) = s) /\
  (future s <> [] -> undo (redo s) = s).
Proof. split; [apply redo_undo|apply undo_redo]. Qed.

Lemma undo_redo_inverse_witness :
  redo (undo (run exOps exStart)) = run exOps exStart /\
  undo (redo (undo (run exOps exStart))) = undo (run exOps exStart).
Proof.
  split.
  - apply (proj1 (undo_redo_inverse (run exOps exStart))). discriminate.
  - apply (proj2 (undo_redo_inverse (undo (run exOps exStart)))). discriminate.
Defined.

(** X2. [undo] and [redo] only move the position in the timeline: the
    sequence made of the history, the current document and the future is the
    same before and after, so no snapshot is lost or invented and the two
    stacks together keep their size. *)
Theorem timeline_invariant (s : State) :
  timeline (undo s) = timeline s /\
  timeline (redo s) = timeline s /\
  (length (history (undo s)) + length (future (undo s))
   = length (history s) + length (future s))%nat /\
  (length (history (redo s)) + length (future (redo s))
   = length (history s) + length (future s))%nat.
Proof.
  assert (U : timeline (undo s) = timeline s).
  { destruct (snoc_cases (history s)) as [E|[h [d E]]].
    - unfold undo. rewrite E. reflexivity.
    - rewrite (undo_snoc s h d E). unfold timeline. rewrite E. simpl.
      rewrite <- app_assoc. destruct d. reflexivity. }
  assert (R : timeline (redo s) = timeline s).
  { destruct (future s) as [|d f] eqn:E.
    - unfold redo. rewrite E. reflexivity.
    - rewrite (redo_cons s d f E). unfold timeline. rewrite E. simpl.
      rewrite <- app_assoc. destruct d. reflexivity. }
  split; [exact U|]. split; [exact R|].
  apply (f_equal (@length _)) in U. apply (f_equal (@length _)) in R.
  unfold timeline in U, R. rewrite !length_app in U, R. simpl in U, R.
  split; lia.
Qed.

(** ** Removing, uploading and updating *)

Lemma find_filter_out (sel : string) (ps : list Piece.t) :
  find (fun p => String.eqb (Piece.id p) sel)
       (filter (fun x => negb (String.eqb (Piece.id x) sel)) ps) = None.
Proof.
  apply find_hasId_absent. intros p Hp. apply filter_In in Hp.
  destruct Hp as [_ Hn]. intros E. rewrite E, String.eqb_refl in Hn. discriminate.
Qed.

(** X3. With a non-empty [selectedId], [removeSelected] deletes exactly the
    pieces carrying that id, leaves the assets alone and clears the
    selection.  One [undo] brings the pieces
    back, but not the selection. *)
Theorem removeSelected_removes (s : State) (sel : string) :
  selectedId s = Some sel ->
  sel <> EmptyString ->
  let s' := removeSelected s in
  (forall p, In p (pieces s') <-> In p (pieces s) /\ Piece.id p <> sel) /\
  (exists gone, Permutation (pieces s) (pieces s' ++ gone) /\
                forall p, In p gone -> Piece.id p = sel) /\
  assets s' = assets s /\
  selectedId s' = None /\
  pieces (undo s') = pieces s /\
  assets (undo s') = assets s /\
  selectedId (undo s') = None /\
  selectedPiece (undo s') = None.
Proof.
  intros Hsel Hne s'.
  assert (E : s' = pushHistory s
                   |> setPieces (fun p => filter (fun x => negb (String.eqb (Piece.id x) sel)) p)
                   |> setSelectedId (to None)).
  { unfold s', removeSelected. rewrite Hsel.
    destruct (String.eqb_spec sel EmptyString); [contradiction|reflexivity]. }
  assert (U : undo s' = mkState (assets s) (pieces s) None (history s)
                                [snapshot s'] (suppressUI s) (snapEnabled s)).
  { rewrite (undo_snoc s' (history s) (snapshot s)); rewrite E; reflexivity. }
  split; [|split; [|split; [|split; [|split; [|split; [|split]]]]]].
  - intros p. rewrite E. simpl. rewrite filter_In. split.
    + intros [Hin Hn]. split; [exact Hin|]. intros Ep.
      rewrite Ep, String.eqb_refl in Hn. discriminate.
    + intros [Hin Hn]. split; [exact Hin|].
      destruct (String.eqb_spec (Piece.id p) sel); [contradiction|reflexivity].
  - exists (filter (fun x => String.eqb (Piece.id x) sel) (pieces s)).
    rewrite E. simpl. split.
    + clear. induction (pieces s) as [|a l IH]; [constructor|].
      simpl. destruct (String.eqb (Piece.id a) sel); simpl.
      * apply Permutation_cons_app. exact IH.
      * constructor. exact IH.
    + intros p Hp. apply filter_In in Hp. apply String.eqb_eq. exact (proj2 Hp).
  - rewrite E. reflexivity.
  - rewrite E. reflexivity.
  - rewrite U. reflexivity.
  - rewrite U. reflexivity.
  - rewrite U. reflexivity.
  - rewrite U. reflexivity.
Qed.

Lemma removeSelected_removes_witness :
  pieces (removeSelected exSelected) = [] /\
  pieces (undo (removeSelected exSelected)) = pieces exSelected /\
  selectedPiece (undo (removeSelected exSelected)) = None.
Proof.
  destruct (removeSelected_removes exSelected "p1"%string eq_refl)
    as (_ & _ & _ & _ & Hp & _ & _ & Hs); [discriminate|].
  split; [reflexivity|]. split; [exact Hp|exact Hs].
Defined.

Lemma readFiles_allRead (uid : nat -> string) (files : list File.t) :
  forall i : nat,
    allRead files = true ->
    exists newAssets : list Asset.t,
      readFiles uid i files = Some newAssets /\
      map Asset.name newAssets = map File.name files /\
      map (fun a => Some (Asset.dataUrl a)) newAssets = map File.read files /\
      map Asset.id newAssets = map uid (seq i (length files)).
Proof.
  induction files as [|f fl IH]; intros i H.
  - exists []. repeat split.
  - simpl in H. apply andb_true_iff in H. destruct H as [Hf Hfl].
    destruct (IH (S i) Hfl) as (l & Hr & Hn & Hd & Hi).
    simpl. destruct (File.read f) as [dataUrl|] eqn:E; [|discriminate].
    rewrite Hr. eexists. split; [reflexivity|]. simpl.
    rewrite Hn, Hd, Hi. repeat split.
Qed.

Lemma readFiles_failed (uid : nat -> string) (files : list File.t) :
  forall i : nat, allRead files = false -> readFiles uid i files = None.
Proof.
  induction files as [|f fl IH]; intros i H; [discriminate|].
  simpl in *. destruct (File.read f); [|reflexivity].
  simpl in H. rewrite (IH (S i) H). reflexivity.
Qed.

(** X4. When at least one file is chosen and every file is read, [onUpload]
    appends one asset per file after the assets already there, in file
    order, each with the name and the data of its file and with the
    identifiers in the order [uid()] drew them; pieces and selection are
    untouched, one snapshot is recorded, and one [undo] removes the new
    assets again. *)
Theorem onUpload_appends (uid : nat -> string) (files : list File.t) (s : State) :
  files <> [] ->
  allRead files = true ->
  let s' := onUpload uid (Some files) s in
  (exists newAssets : list Asset.t,
     assets s' = assets s ++ newAssets /\
     length newAssets = length files /\
     map Asset.name newAssets = map File.name files /\
     map (fun a => Some (Asset.dataUrl a)) newAssets = map File.read files /\
     map Asset.id newAssets = map uid (seq 0 (length files))) /\
  pieces s' = pieces s /\
  selectedId s' = selectedId s /\
  history s' = history s ++ [snapshot s] /\
  assets (undo s') = assets s.
Proof.
  intros Hne Hall s'.
  destruct (readFiles_allRead uid files 0 Hall) as (l & Hr & Hn & Hd & Hi).
  assert (E : s' = pushHistory s |> setAssets (fun a => a ++ l)).
  { unfold s', onUpload. destruct files; [contradiction|]. rewrite Hr. reflexivity. }
  split; [|split; [|split; [|split]]]; try (rewrite E; reflexivity).
  - exists l. split; [rewrite E; reflexivity|].
    split; [|auto]. rewrite <- (length_map Asset.name l), Hn. apply length_map.
  - rewrite (undo_snoc s' (history s) (snapshot s)); rewrite E; reflexivity.
Qed.

Lemma onUpload_appends_witness :
  map Asset.name (assets (onUpload exUid (Some exFiles) exStart))
  = ["art1.svg"%string; "a.png"%string; "b.png"%string] /\
  assets (undo (onUpload exUid (Some exFiles) exStart)) = assets exStart.
Proof.
  destruct (onUpload_appends exUid exFiles exStart) as (_ & _ & _ & _ & U);
    [discriminate|reflexivity|].
  split; [reflexivity|exact U].
Defined.

(** X5. When a file of the selection cannot be read, [onUpload] adds no
    asset at all, not even those read before the failure, yet a snapshot
    has been recorded and the future stack emptied: the [undo] that follows
    changes neither assets nor pieces.  With no file list or an empty one
    the state is returned as it was. *)
Theorem onUpload_failed_read (uid : nat -> string) (files : list File.t) (s : State) :
  (allRead files = false ->
   let s' := onUpload uid (Some files) s in
   assets s' = assets s /\
   pieces s' = pieces s /\
   history s' = history s ++ [snapshot s] /\
   future s' = [] /\
   snapshot (undo s') = snapshot s) /\
  onUpload uid None s = s /\
  onUpload uid (Some []) s = s.
Proof.
  split; [|split; reflexivity].
  intros Hbad s'.
  assert (E : s' = pushHistory s).
  { unfold s', onUpload. destruct files; [discriminate|].
    rewrite (readFiles_failed uid _ 0 Hbad). reflexivity. }
  rewrite E. repeat split.
  erewrite undo_snoc by reflexivity. reflexivity.
Qed.

Lemma onUpload_failed_read_witness :
  assets (onUpload exUid (Some exBadFiles) (undo (run exOps exStart)))
  = assets exStart /\
  future (onUpload exUid (Some exBadFiles) (undo (run exOps exStart))) = [].
Proof.
  destruct (onUpload_failed_read exUid exBadFiles (undo (run exOps exStart)))
    as [F _].
  destruct (F eq_refl) as (Ha & _ & _ & Hf & _).
  split; [exact Ha|exact Hf].
Defined.

Lemma map_other_ids (sel : string) (g : Piece.t -> Piece.t) (ps : list Piece.t)
  (p : Piece.t) :
  In p ps -> Piece.id p <> sel ->
  In p (map (fun x => if String.eqb (Piece.id x) sel then g x else x) ps).
Proof.
  intros Hin Hne. apply in_map_iff. exists p. split; [|exact Hin].
  destruct (String.eqb_spec (Piece.id p) sel); [contradiction|reflexivity].
Qed.

(** X6. [updateSelected] with a patch that leaves the id alone replaces the
    selected piece by its merge with the patch, keeps the pieces with another
    id and the number of pieces, and records nothing: both stacks are as
    before.  Hence the [undo] that follows discards the update together with
    the last recorded change, landing on the same document as an [undo]
    taken before the update, and [redo] then returns to the updated state. *)
Theorem updateSelected_unrecorded (d : Piece.patch) (s : State) (sp : Piece.t) :
  selectedPiece s = Some sp ->
  Piece.p_id d = None ->
  let s' := updateSelected d s in
  selectedPiece s' = Some (Piece.merge sp d) /\
  (forall p, In p (pieces s) -> Piece.id p <> Piece.id sp -> In p (pieces s')) /\
  length (pieces s') = length (pieces s) /\
  history s' = history s /\
  future s' = future s /\
  (history s <> [] ->
   snapshot (undo s') = snapshot (undo s) /\ redo (undo s') = s').
Proof.
  intros Hsel Hid s'.
  assert (E : s' = s |> setPieces (fun p =>
                 map (fun x => if String.eqb (Piece.id x) (Piece.id sp)
                               then Piece.merge x d else x) p)).
  { unfold s', updateSelected. rewrite Hsel. reflexivity. }
  split; [|split; [|split; [|split; [|split]]]].
  - rewrite E. unfold selectedPiece in *. simpl.
    destruct (selectedId s) as [sel|]; [|discriminate].
    apply (find_hasId_map sel (fun x => Piece.merge x d) sp); [|exact Hsel].
    intros p. simpl. rewrite Hid. reflexivity.
  - intros p Hin Hne. rewrite E. simpl. apply map_other_ids; assumption.
  - rewrite E. simpl. apply length_map.
  - rewrite E. reflexivity.
  - rewrite E. reflexivity.
  - intros Hne. split.
    + destruct (snoc_cases (history s)) as [F|[h [d0 F]]]; [contradiction|].
      rewrite (undo_snoc s h d0 F).
      rewrite (undo_snoc s' h d0); [reflexivity|]. rewrite E. exact F.
    + apply redo_undo. rewrite E. exact Hne.
Qed.

Lemma updateSelected_unrecorded_witness :
  let d := Piece.mkPatch None None None None None None (Some 90)
                         None None None None None in
  let s := run exOps exStart in
  Piece.hue (hd (Piece.mk EmptyString EmptyString 0 0 0 0 0 0 0 0 0 0)
                (rev (pieces (updateSelected d s)))) = 90 /\
  history (updateSelected d s) = history s /\
  snapshot (undo (updateSelected d s)) = snapshot (undo s).
Proof.
  intros d s.
  assert (Hsel : selectedPiece s <> None) by discriminate.
  destruct (selectedPiece s) as [sp|] eqn:E; [|contradiction].
  destruct (updateSelected_unrecorded d s sp E eq_refl) as (_ & _ & _ & Hh & _ & U).
  split; [reflexivity|]. split; [exact Hh|]. apply U. discriminate.
Defined.

(** ** Dragging, resizing and the grid *)

Lemma Qfloor_unique (x : Q) (k : Z) :
  inject_Z k <= x -> x < inject_Z (k + 1) -> Qfloor x = k.
Proof.
  intros Hlo Hhi.
  pose proof (Qfloor_le x) as Fl. pose proof (Qlt_floor x) as Fh.
  assert (A : inject_Z k < inject_Z (Qfloor x + 1)) by (eapply Qle_lt_trans; eauto).
  assert (B : inject_Z (Qfloor x) < inject_Z (k + 1)) by (eapply Qle_lt_trans; eauto).
  rewrite <- Zlt_Qlt in A, B. lia.
Qed.

Lemma snap_multiple (v : number) :
  exists k : Z, snap true v = inject_Z (k * 24).
Proof. exists (Qfloor (v / gridSize + (1 # 2))). apply snap_on_grid. Qed.

Lemma snap_within (v : number) : Qabs (snap true v - v) <= 12.
Proof.
  pose proof (Math_round_bounds (v / 24)) as [Hlo Hhi].
  unfold snap, gridSize. unfold Math_round in *.
  set (k := Qfloor (v / 24 + (1 # 2))) in *. clearbody k.
  unfold Qdiv in Hlo, Hhi. change (/ 24) with (1 # 24) in Hlo, Hhi.
  apply Qabs_case; intros _; lra.
Qed.

Lemma snap_monotone (v w : number) : v <= w -> snap true v <= snap true w.
Proof.
  intros Hle. rewrite !snap_on_grid. rewrite <- Zle_Qle.
  apply Z.mul_le_mono_nonneg_r; [lia|]. apply Qfloor_resp_le.
  unfold Qdiv, gridSize. change (/ 24) with (1 # 24). lra.
Qed.

Lemma snap_zero_band (v : number) : -(12) <= v -> v < 12 -> snap true v = 0.
Proof.
  intros Hlo Hhi. rewrite snap_on_grid.
  rewrite (Qfloor_unique _ 0%Z); [reflexivity| |];
    unfold Qdiv, gridSize; change (/ 24) with (1 # 24).
  - change (inject_Z 0) with 0. lra.
  - change (inject_Z (0 + 1)) with 1. lra.
Qed.

(** X9. With snapping on, the transform moves a value by at most half a
    grid unit (12), keeps the order of any two values, and sends the whole
    band from -12 up to, not including, 12 to 0, so that a width or height
    below 12 collapses to 0. *)
Theorem snap_displacement (v w : number) :
  Qabs (snap true v - v) <= 12 /\
  (v <= w -> snap true v <= snap true w) /\
  (-(12) <= v -> v < 12 -> snap true v = 0).
Proof.
  split; [apply snap_within|]. split; [apply snap_monotone|apply snap_zero_band].
Qed.

Lemma snap_displacement_witness :
  snap true 47 <= snap true 61 /\ snap true 11 = 0 /\ snap true (-(12)) = 0.
Proof.
  split; [|split].
  - apply (snap_displacement 47 61). discriminate.
  - apply (snap_displacement 11 11); [discriminate|reflexivity].
  - apply (snap_displacement (-(12)) 0); [discriminate|reflexivity].
Defined.

Lemma selectedPiece_updateSelected (d : Piece.patch) (s : State) (sp : Piece.t) :
  selectedPiece s = Some sp ->
  Piece.p_id d = None ->
  selectedPiece (updateSelected d s) = Some (Piece.merge sp d).
Proof.
  intros Hsel Hid. unfold updateSelected. rewrite Hsel.
  unfold selectedPiece in *. simpl.
  destruct (selectedId s) as [sel|]; [|discriminate].
  apply (find_hasId_map sel (fun x => Piece.merge x d) sp); [|exact Hsel].
  intros p. simpl. rewrite Hid. reflexivity.
Qed.

(** X7. When a drag ends on the selected piece, that piece takes the drop
    position, each coordinate put through the snap transform: with snapping
    on both are integer multiples of 24, with snapping off they are the drop
    coordinates themselves.  Size, filters, height in the stack, id and asset
    are kept and nothing is recorded on the history stacks.  Without a
    selected piece the state is returned unchanged. *)
Theorem onDragStop_moves (dx dy : number) (s : State) :
  (forall sp : Piece.t,
     selectedPiece s = Some sp ->
     let s' := onDragStop dx dy s in
     exists moved : Piece.t,
       selectedPiece s' = Some moved /\
       (snapEnabled s = true ->
        exists kx ky : Z,
          Piece.x moved = inject_Z (kx * 24) /\ Piece.y moved = inject_Z (ky * 24) /\
          Qabs (Piece.x moved - dx) <= 12 /\ Qabs (Piece.y moved - dy) <= 12) /\
       (snapEnabled s = false -> Piece.x moved = dx /\ Piece.y moved = dy) /\
       (Piece.id moved = Piece.id sp /\ Piece.assetId moved = Piece.assetId sp /\
        Piece.width moved = Piece.width sp /\ Piece.height moved = Piece.height sp /\
        Piece.hue moved = Piece.hue sp /\ Piece.saturate moved = Piece.saturate sp /\
        Piece.brightness moved = Piece.brightness sp /\
        Piece.contrast moved = Piece.contrast sp /\
        Piece.opacity moved = Piece.opacity sp /\ Piece.z moved = Piece.z sp) /\
       history s' = history s /\
       future s' = future s) /\
  (selectedPiece s = None -> onDragStop dx dy s = s).
Proof.
  split.
  - intros sp Hsel s'.
    exists (Piece.merge sp
              (Piece.mkPatch None None (Some (snap (snapEnabled s) dx))
                 (Some (snap (snapEnabled s) dy))
                 None None None None None None None None)).
    split; [apply selectedPiece_updateSelected; [exact Hsel|reflexivity]|].
    split; [|split; [|split; [|split]]]; simpl.
    + intros En. rewrite En.
      destruct (snap_multiple dx) as [kx Hx]. destruct (snap_multiple dy) as [ky Hy].
      exists kx, ky. split; [exact Hx|]. split; [exact Hy|].
      split; apply snap_within.
    + intros En. rewrite En. split; reflexivity.
    + repeat split.
    + unfold s', onDragStop, updateSelected. rewrite Hsel. reflexivity.
    + unfold s', onDragStop, updateSelected. rewrite Hsel. reflexivity.
  - intros Hnone. unfold onDragStop, updateSelected. rewrite Hnone. reflexivity.
Qed.

Lemma onDragStop_moves_witness :
  exists moved : Piece.t,
    selectedPiece (onDragStop 130 (-(7)) (toggleSnap exSelected)) = Some moved /\
    Qabs (Piece.x moved - 130) <= 12 /\
    Piece.width moved = 50.
Proof.
  destruct (onDragStop_moves 130 (-(7)) (toggleSnap exSelected)) as [M _].
  destruct (M _ eq_refl) as (moved & Hsel & Hon & _ & Hkeep & _).
  destruct (Hon eq_refl) as (kx & ky & _ & _ & Hx & _).
  destruct Hkeep as (_ & _ & Hw & _).
  exists moved. split; [exact Hsel|]. split; [exact Hx|exact Hw].
Defined.

Lemma find_hasId_map_by (pc : Piece.t) (g : Piece.t -> Piece.t) (q : Piece.t) :
  (forall p, Piece.id (g p) = Piece.id p) ->
  forall ps : list Piece.t,
    find (fun p => String.eqb (Piece.id p) (Piece.id pc)) ps = Some q ->
    find (fun p => String.eqb (Piece.id p) (Piece.id pc))
         (map (fun p => if String.eqb (Piece.id p) (Piece.id pc) then g p else p) ps)
    = Some (g q).
Proof.
  intros Hg ps H.
  assert (Hq : Piece.id q = Piece.id pc).
  { apply find_some in H. apply String.eqb_eq. exact (proj2 H). }
  revert H. rewrite <- Hq. intros H. apply find_hasId_map; assumption.
Qed.

(** X8. When a resize ends, the piece the gesture was made on, found by its
    id and whether or not it is the selected one, takes the new size and
    position, each of the four values put through the snap transform (with
    snapping on they are integer multiples of 24); its other fields, the
    pieces with another id, the selection and both history stacks stay as
    they were. *)
Theorem onResizeStop_resizes (pc : Piece.t) (refWidth refHeight posX posY : number)
  (s : State) (q : Piece.t) :
  find (fun p => String.eqb (Piece.id p) (Piece.id pc)) (pieces s) = Some q ->
  let s' := onResizeStop pc refWidth refHeight posX posY s in
  (exists resized : Piece.t,
     find (fun p => String.eqb (Piece.id p) (Piece.id pc)) (pieces s') = Some resized /\
     Piece.width resized = snap (snapEnabled s) refWidth /\
     Piece.height resized = snap (snapEnabled s) refHeight /\
     Piece.x resized = snap (snapEnabled s) posX /\
     Piece.y resized = snap (snapEnabled s) posY /\
     (snapEnabled s = true ->
      exists kw kh kx ky : Z,
        Piece.width resized = inject_Z (kw * 24) /\
        Piece.height resized = inject_Z (kh * 24) /\
        Piece.x resized = inject_Z (kx * 24) /\
        Piece.y resized = inject_Z (ky * 24)) /\
     (Piece.id resized = Piece.id q /\ Piece.assetId resized = Piece.assetId q /\
      Piece.hue resized = Piece.hue q /\ Piece.saturate resized = Piece.saturate q /\
      Piece.brightness resized = Piece.brightness q /\
      Piece.contrast resized = Piece.contrast q /\
      Piece.opacity resized = Piece.opacity q /\ Piece.z resized = Piece.z q)) /\
  (forall p, In p (pieces s) -> Piece.id p <> Piece.id pc -> In p (pieces s')) /\
  length (pieces s') = length (pieces s) /\
  selectedId s' = selectedId s /\
  history s' = history s /\
  future s' = future s.
Proof.
  intros Hq s'.
  split; [|split; [|split; [|repeat split]]].
  - eexists. split.
    + unfold s', onResizeStop. simpl.
      apply (find_hasId_map_by pc (fun x => Piece.merge x _) q); [|exact Hq].
      intros p. reflexivity.
    + simpl. do 4 (split; [reflexivity|]). split; [|repeat split].
      intros En. rewrite En.
      destruct (snap_multiple refWidth) as [kw Hw].
      destruct (snap_multiple refHeight) as [kh Hh].
      destruct (snap_multiple posX) as [kx Hx].
      destruct (snap_multiple posY) as [ky Hy].
      exists kw, kh, kx, ky. auto.
  - intros p Hin Hne. unfold s', onResizeStop. simpl.
    apply map_other_ids; assumption.
  - unfold s', onResizeStop. simpl. apply length_map.
Qed.

Lemma onResizeStop_resizes_witness :
  let pc := Piece.mk "p1"%string "a1"%string 0 0 0 0 0 0 0 0 0 0 in
  let s := run exOps exStart in
  selectedId (onResizeStop pc 7 7 100 100 (toggleSnap s)) = Some "p2"%string /\
  exists resized : Piece.t,
    find (fun p => String.eqb (Piece.id p) "p1"%string)
         (pieces (onResizeStop pc 7 7 100 100 (toggleSnap s))) = Some resized /\
    Piece.width resized = 0 /\ Piece.x resized = 96.
Proof.
  intros pc s.
  assert (F : find (fun p => String.eqb (Piece.id p) (Piece.id pc)) (pieces (toggleSnap s))
              <> None) by discriminate.
  destruct (find (fun p => String.eqb (Piece.id p) (Piece.id pc)) (pieces (toggleSnap s)))
    as [q|] eqn:E; [|contradiction].
  destruct (onResizeStop_resizes pc 7 7 100 100 (toggleSnap s) q E)
    as ((resized & Hf & Hw & _ & Hx & _) & _ & _ & Hs & _).
  split; [exact Hs|]. exists resized. split; [exact Hf|]. split; [exact Hw|exact Hx].
Defined.

(** ** Saving and loading *)

(** X10. Save followed by load brings the saved document back.  If
    [JSON.parse] reads back what [JSON.stringify] wrote for the document of
    [s1] (a non-empty text), then loading into any later state [s2] from the
    storage [saveProject] left raises no alert, installs the assets and
    pieces of [s1], clears the selection, and keeps the history and future
    stacks of [s2]; saving raised the one confirmation and wrote no other
    key. *)
Theorem save_then_load (JSON_stringify : Project.t -> string)
  (JSON_parse : string -> option parsed) (getItem : string -> option string)
  (s1 s2 : State) :
  JSON_stringify (Project.mk (assets s1) (pieces s1)) <> EmptyString ->
  JSON_parse (JSON_stringify (Project.mk (assets s1) (pieces s1)))
  = Some (ParsedValue (Some (assets s1)) (Some (pieces s1))) ->
  let storage := fst (saveProject JSON_stringify getItem s1) in
  let r := loadProject JSON_parse storage s2 in
  snd (saveProject JSON_stringify getItem s1) = [saved] /\
  (forall k, k <> PROJECT_KEY -> storage k = getItem k) /\
  snd r = [] /\
  assets (fst r) = assets s1 /\
  pieces (fst r) = pieces s1 /\
  selectedId (fst r) = None /\
  history (fst r) = history s2 /\
  future (fst r) = future s2.
Proof.
  intros Hne Hrt storage r.
  split; [reflexivity|]. split.
  - intros k Hk. unfold storage, saveProject, setItem. simpl.
    destruct (String.eqb_spec k PROJECT_KEY); [contradiction|reflexivity].
  - unfold r, loadProject, storage, saveProject, setItem. simpl.
    destruct (String.eqb_spec (JSON_stringify (Project.mk (assets s1) (pieces s1)))
                              EmptyString) as [E|_]; [contradiction|].
    rewrite Hrt. repeat split.
Qed.

Lemma save_then_load_witness :
  let s1 := run exOps exStart in
  let storage := fst (saveProject exStringify (exStorage None) s1) in
  pieces (fst (loadProject exParse storage initialState)) = pieces s1 /\
  snd (loadProject exParse storage initialState) = [].
Proof.
  intros s1 storage.
  destruct (save_then_load exStringify exParse (exStorage None) s1 initialState)
    as (_ & _ & Ha & _ & Hp & _); [discriminate|reflexivity|].
  split; [exact Hp|exact Ha].
Defined.

(** ** Drawing order *)

Lemma insertBy_perm {A : Type} (cmp : A -> A -> number) (v : A) (arr : list A) :
  Permutation (insertBy cmp v arr) (v :: arr).
Proof.
  induction arr as [|w rest IH]; simpl; [reflexivity|].
  destruct (Qle_bool (cmp v w) 0); [reflexivity|].
  rewrite IH. apply perm_swap.
Qed.

Lemma Array_sort_perm {A : Type} (cmp : A -> A -> number) (arr : list A) :
  Permutation (Array_sort cmp arr) arr.
Proof.
  induction arr as [|v rest IH]; simpl; [reflexivity|].
  rewrite insertBy_perm. constructor. exact IH.
Qed.

Lemma byZ_le (a b : Piece.t) : Qle_bool (byZ a b) 0 = true <-> zLe a b.
Proof.
  rewrite Qle_bool_iff. unfold byZ, zLe. split; intros H; lra.
Qed.

Lemma insertBy_sorted (v : Piece.t) (arr : list Piece.t) :
  StronglySorted zLe arr -> StronglySorted zLe (insertBy byZ v arr).
Proof.
  induction arr as [|w rest IH]; intros H; simpl.
  - constructor; constructor.
  - inversion H as [|? ? Hrest Hall]; subst.
    destruct (Qle_bool (byZ v w) 0) eqn:E.
    + apply byZ_le in E. constructor; [exact H|].
      constructor; [exact E|].
      eapply Forall_impl; [|exact Hall]. intros p Hp. unfold zLe in *. lra.
    + constructor; [apply IH; exact Hrest|].
      eapply Permutation_Forall; [symmetry; apply insertBy_perm|].
      constructor; [|exact Hall].
      assert (N : ~ zLe v w) by (rewrite <- byZ_le, E; discriminate).
      unfold zLe in *. lra.
Qed.

Lemma insertBy_stable (h : number) (v : Piece.t) (arr : list Piece.t) :
  filter (atHeight h) (insertBy byZ v arr) = filter (atHeight h) (v :: arr).
Proof.
  induction arr as [|w rest IH]; [reflexivity|].
  simpl insertBy. destruct (Qle_bool (byZ v w) 0) eqn:E; [reflexivity|].
  assert (N : ~ zLe v w) by (rewrite <- byZ_le, E; discriminate).
  simpl filter in *. rewrite IH.
  destruct (atHeight h w) eqn:Hw; destruct (atHeight h v) eqn:Hv; try reflexivity.
  exfalso. unfold atHeight in *. apply Qeq_bool_iff in Hw, Hv.
  apply N. unfold zLe. rewrite Hw, Hv. apply Qle_refl.
Qed.

(** X11. The pieces are drawn in the order of their [z]: the drawing order
    is a rearrangement of the pieces of the document, nobody dropped or
    repeated, in which no piece comes after one with a larger [z], and in
    which the pieces that share a [z] keep the order they have in the
    document, so among equals the piece added later is drawn on top. *)
Theorem drawingOrder_sorted_stable (s : State) :
  Permutation (drawingOrder s) (pieces s) /\
  StronglySorted zLe (drawingOrder s) /\
  (forall h : number,
     filter (atHeight h) (drawingOrder s) = filter (atHeight h) (pieces s)).
Proof.
  unfold drawingOrder. split; [apply Array_sort_perm|]. split.
  - induction (pieces s) as [|v rest IH]; simpl; [constructor|].
    apply insertBy_sorted. exact IH.
  - intros h. induction (pieces s) as [|v rest IH]; simpl; [reflexivity|].
    rewrite insertBy_stable. simpl. rewrite IH. reflexivity.
Qed.

Example drawingOrder_exStacked :
  map Piece.id (drawingOrder exStacked) = ["p2"%string; "p1"%string] /\
  map Piece.id
      (drawingOrder (addPieceFromAsset (Some exCanvas) "p3"%string exAsset
                       (bringForward exStacked)))
  = ["p2"%string; "p1"%string; "p3"%string].
Proof. split; reflexivity. Qed.

(** ** The rendered boxes *)

Lemma render_keys (show : number -> string) (s : State) (l : list Piece.t) :
  map Rnd.key
      (flat_map (fun pc => match renderPiece show s pc with
                           | Some box => [box]
                           | None => []
                           end) l)
  = map Piece.id (filter (fun pc => isSome (assetOf (assets s) pc)) l).
Proof.
  induction l as [|pc l IH]; [reflexivity|].
  simpl. unfold renderPiece at 1.
  destruct (assetOf (assets s) pc); simpl; rewrite IH; reflexivity.
Qed.

Lemma render_box_inv (show : number -> string) (s : State) (box : Rnd.t) :
  In box (render show s) ->
  exists pc asset,
    In pc (pieces s) /\ assetOf (assets s) pc = Some asset /\
    Rnd.key box = Piece.id pc /\
    Rnd.outlined box = (negb (suppressUI s) && isSelected s pc)%bool /\
    Rnd.hint box = negb (suppressUI s) /\
    Rnd.src box = Asset.dataUrl asset.
Proof.
  unfold render. intros H. apply in_flat_map in H. destruct H as [pc [Hpc Hbox]].
  unfold renderPiece in Hbox.
  destruct (assetOf (assets s) pc) as [asset|] eqn:E; [|contradiction].
  destruct Hbox as [<-|[]]. exists pc, asset.
  split; [|split; [exact E|repeat split]].
  eapply Permutation_in; [apply Array_sort_perm|exact Hpc].
Qed.

(** X12. What is rendered is one box per piece that has its asset among the
    assets, in drawing order and keyed by the piece id; a piece whose asset
    is missing is skipped though it stays in the document.  A box carries the
    selection outline only when the interface is not suppressed and its piece
    is the selected one, and while the interface is suppressed no box carries
    outline or hint. *)
Theorem render_boxes (show : number -> string) (s : State) :
  map Rnd.key (render show s)
  = map Piece.id (filter (fun pc => isSome (assetOf (assets s) pc)) (drawingOrder s)) /\
  (forall box, In box (render show s) ->
     Rnd.outlined box = true ->
     suppressUI s = false /\ selectedId s = Some (Rnd.key box)) /\
  (suppressUI s = true ->
   forall box, In box (render show s) ->
     Rnd.outlined box = false /\ Rnd.hint box = false).
Proof.
  split; [apply render_keys|]. split.
  - intros box Hin Hout.
    destruct (render_box_inv show s box Hin) as (pc & asset & _ & _ & Hk & Ho & _).
    rewrite Ho in Hout. apply andb_true_iff in Hout. destruct Hout as [Hs Hsel].
    split; [destruct (suppressUI s); [discriminate|reflexivity]|].
    unfold isSelected in Hsel. destruct (selectedId s) as [sel|]; [|discriminate].
    apply String.eqb_eq in Hsel. rewrite Hk, Hsel. reflexivity.
  - intros Hs box Hin.
    destruct (render_box_inv show s box Hin) as (pc & asset & _ & _ & _ & Ho & Hh & _).
    rewrite Ho, Hh, Hs. split; reflexivity.
Qed.

Lemma render_boxes_witness :
  let orphaned := seedAssets [] (run exOps exStart) in
  length (pieces orphaned) = 2%nat /\
  render exShow orphaned = [] /\
  forall box, In box (render exShow (setSuppressUI (to true) (run exOps exStart))) ->
    Rnd.outlined box = false /\ Rnd.hint box = false.
Proof.
  intros orphaned. split; [reflexivity|]. split; [reflexivity|].
  apply (render_boxes exShow (setSuppressUI (to true) (run exOps exStart))).
  reflexivity.
Defined.

(** ** Pieces keep their assets *)

Lemma assetOf_app (al extra : list Asset.t) (pc : Piece.t) :
  isSome (assetOf al pc) = true -> isSome (assetOf (al ++ extra) pc) = true.
Proof.
  unfold assetOf. intros H.
  destruct (find _ al) as [a|] eqn:E; [|discriminate].
  rewrite (find_app_found _ al extra a E). reflexivity.
Qed.

Lemma assetOf_in (al : list Asset.t) (a : Asset.t) (pc : Piece.t) :
  In a al -> Piece.assetId pc = Asset.id a -> isSome (assetOf al pc) = true.
Proof.
  intros Hin E. unfold assetOf.
  destruct (find _ al) as [b|] eqn:F; [reflexivity|].
  pose proof (find_none _ _ F a Hin) as N. simpl in N.
  rewrite E, String.eqb_refl in N. discriminate.
Qed.

Lemma mutation_keeps_noOrphans (s : State) (m : Mutation) :
  noOrphans (snapshot s) = true ->
  fromThumbnail m s ->
  noOrphans (snapshot (apply m s)) = true.
Proof.
  unfold noOrphans, snapshot, structuredClone. simpl.
  rewrite !forallb_forall. intros Inv Hm pc.
  destruct m as [uid files|canvasRef uid asset| |uid| |]; simpl.
  - unfold onUpload. destruct files as [[|f fl]|]; try apply Inv.
    destruct (readFiles uid 0 (f :: fl)); simpl; [|apply Inv].
    intros Hin. apply assetOf_app. apply Inv. exact Hin.
  - destruct canvasRef as [rect|]; [|apply Inv]. simpl.
    intros Hin. apply in_app_or in Hin. destruct Hin as [Hin|[<-|[]]]; [apply Inv; exact Hin|].
    apply (assetOf_in _ asset); [exact Hm|reflexivity].
  - unfold removeSelected. destruct (selectedId s) as [sel|]; [|apply Inv].
    destruct (String.eqb sel EmptyString); [apply Inv|]. simpl.
    intros Hin. apply filter_In in Hin. apply Inv. exact (proj1 Hin).
  - unfold duplicateSelected. destruct (selectedPiece s) as [sp|] eqn:E; [|apply Inv].
    simpl. intros Hin. apply in_app_or in Hin.
    destruct Hin as [Hin|[<-|[]]]; [apply Inv; exact Hin|].
    apply selectedPiece_in in E. exact (Inv sp (proj1 E)).
  - unfold bringForward. destruct (selectedPiece s) as [sp|]; [|apply Inv].
    simpl. intros Hin. apply in_map_iff in Hin. destruct Hin as [q [<- Hq]].
    destruct (String.eqb (Piece.id q) (Piece.id sp)); exact (Inv q Hq).
  - unfold sendBackward. destruct (selectedPiece s) as [sp|]; [|apply Inv].
    simpl. intros Hin. apply in_map_iff in Hin. destruct Hin as [q [<- Hq]].
    destruct (String.eqb (Piece.id q) (Piece.id sp)); exact (Inv q Hq).
Qed.

Lemma consistent_iff (s : State) :
  consistent s = true <->
  noOrphans (snapshot s) = true /\
  forallb noOrphans (history s) = true /\
  forallb noOrphans (future s) = true.
Proof.
  unfold consistent. rewrite !andb_true_iff. tauto.
Qed.

(** X13. No editing step creates a piece without asset.  If the current
    document and every snapshot on the two stacks have all their pieces
    matched by an asset, the same holds after any of the recording handlers
    (a piece being placed from one of the listed assets), after [undo] and
    after [redo]; and in such a state every piece of the document is
    rendered. *)
Theorem consistent_preserved (show : number -> string) (s : State) (m : Mutation) :
  consistent s = true ->
  fromThumbnail m s ->
  consistent (apply m s) = true /\
  consistent (undo s) = true /\
  consistent (redo s) = true /\
  map Rnd.key (render show s) = map Piece.id (drawingOrder s).
Proof.
  intros C Hm. pose proof C as C0. apply consistent_iff in C.
  destruct C as (Hd & Hh & Hf).
  split; [|split; [|split]].
  - destruct (enabled m s) eqn:E.
    + destruct (enabled_recorded m s E) as [Rh Rf].
      apply consistent_iff. rewrite Rh, Rf, forallb_app. simpl.
      rewrite Hh, Hd. split; [|split; reflexivity].
      apply mutation_keeps_noOrphans; assumption.
    + rewrite (disabled_noop m s E). exact C0.
  - destruct (snoc_cases (history s)) as [E|[h [d E]]].
    + unfold undo. rewrite E. exact C0.
    + rewrite (undo_snoc s h d E). apply consistent_iff. simpl.
      rewrite E, forallb_app in Hh. simpl in Hh.
      apply andb_true_iff in Hh. destruct Hh as [Hh1 Hh2].
      apply andb_true_iff in Hh2. destruct Hh2 as [Hd' _].
      rewrite Hd, Hf. destruct d. auto.
  - destruct (future s) as [|d f] eqn:E.
    + unfold redo. rewrite E. exact C0.
    + rewrite (redo_cons s d f E). apply consistent_iff. simpl.
      simpl in Hf. apply andb_true_iff in Hf. destruct Hf as [Hd' Hf'].
      rewrite forallb_app. simpl. rewrite Hh, Hd, Hf'. destruct d. auto.
  - unfold render. rewrite render_keys. f_equal.
    apply forallb_filter_id. apply forallb_forall. intros pc Hin.
    unfold noOrphans, snapshot, structuredClone in Hd. simpl in Hd.
    rewrite forallb_forall in Hd. apply Hd.
    eapply Permutation_in; [apply Array_sort_perm|exact Hin].
Qed.

Lemma consistent_preserved_witness :
  consistent exStacked = true /\
  consistent (apply (AddPiece (Some exCanvas) "p3"%string exAsset) exStacked) = true /\
  consistent (undo exStacked) = true.
Proof.
  destruct (consistent_preserved exShow exStacked
              (AddPiece (Some exCanvas) "p3"%string exAsset))
    as (Ha & Hu & _); [reflexivity|left; reflexivity|].
  split; [reflexivity|]. split; [exact Ha|exact Hu].
Defined.

(** ** Keyboard shortcuts *)

Lemma chord_key (e : KeyboardEvent.t) (k : string) :
  chord e k = true ->
  (KeyboardEvent.ctrlKey e || KeyboardEvent.metaKey e)%bool = true /\
  toLowerCase (KeyboardEvent.key e) = k.
Proof.
  unfold chord. intros H. apply andb_true_iff in H. destruct H as [Hm Hk].
  apply String.eqb_eq in Hk. auto.
Qed.

Lemma chord_other (e : KeyboardEvent.t) (k k' : string) :
  chord e k = true -> k <> k' -> chord e k' = false.
Proof.
  intros H Hne. apply chord_key in H. destruct H as [_ Hk].
  unfold chord. rewrite Hk.
  destruct (String.eqb_spec k k'); [contradiction|]. apply andb_false_r.
Qed.

Lemma chord_not_delete (e : KeyboardEvent.t) (k : string) :
  chord e k = true ->
  k <> "delete"%string -> k <> "backspace"%string ->
  (String.eqb (KeyboardEvent.key e) "Delete"
   || String.eqb (KeyboardEvent.key e) "Backspace")%bool = false.
Proof.
  intros H Hd Hb. apply chord_key in H. destruct H as [_ Hk].
  destruct (String.eqb_spec (KeyboardEvent.key e) "Delete") as [E|_].
  { rewrite E in Hk. change (toLowerCase "Delete") with "delete"%string in Hk.
    congruence. }
  destruct (String.eqb_spec (KeyboardEvent.key e) "Backspace") as [E|_].
  { rewrite E in Hk. change (toLowerCase "Backspace") with "backspace"%string in Hk.
    congruence. }
  reflexivity.
Qed.

Lemma onKey_chord_z (uid : string) (e : KeyboardEvent.t) (c s : State) :
  chord e "z" = true ->
  onKey uid e c s
  = (if KeyboardEvent.shiftKey e then redoFrom c s else undoFrom c s, true).
Proof.
  intros H. unfold onKey.
  rewrite (chord_not_delete e "z" H) by discriminate.
  rewrite H, (chord_other e "z" "y" H), (chord_other e "z" "d" H) by discriminate.
  reflexivity.
Qed.

Lemma onKey_chord_y (uid : string) (e : KeyboardEvent.t) (c s : State) :
  chord e "y" = true -> onKey uid e c s = (redoFrom c s, true).
Proof.
  intros H. unfold onKey.
  rewrite (chord_not_delete e "y" H) by discriminate.
  rewrite H, (chord_other e "y" "z" H), (chord_other e "y" "d" H) by discriminate.
  reflexivity.
Qed.

(** A listener registered in the current render runs the handlers of the
    buttons. *)
Lemma handlers_from_current (uid : string) (s : State) :
  undoFrom s s = undo s /\ redoFrom s s = redo s /\
  removeSelectedFrom s s = removeSelected s /\
  duplicateSelectedFrom uid s s = duplicateSelected uid s.
Proof. repeat split. Qed.

Lemma undoFrom_snoc (c s : State) (h : list Project.t) (d : Project.t) :
  history c = history s ->
  history s = h ++ [d] ->
  undoFrom c s = mkState (Project.assets d) (Project.pieces d) (selectedId s) h
                         (snapshot c :: future s) (suppressUI s) (snapEnabled s).
Proof.
  intros Hc E. unfold undoFrom. rewrite Hc, E, lastElement_snoc.
  unfold setPieces, setAssets, setFuture, setHistory, to, slice_0_m1. simpl.
  rewrite E, removelast_last. reflexivity.
Qed.

(** X14. A key press that is neither Delete nor Backspace and is not Ctrl or
    Cmd together with Z, Y or D (in either case) changes nothing and does not
    suppress the browser's own handling, whatever render the listener was
    registered in: plain letters, and modifiers with any other key, are
    ignored. *)
Theorem onKey_ignores (uid : string) (e : KeyboardEvent.t) (c s : State) :
  KeyboardEvent.key e <> "Delete"%string ->
  KeyboardEvent.key e <> "Backspace"%string ->
  (KeyboardEvent.ctrlKey e || KeyboardEvent.metaKey e)%bool = false \/
  (toLowerCase (KeyboardEvent.key e) <> "z"%string /\
   toLowerCase (KeyboardEvent.key e) <> "y"%string /\
   toLowerCase (KeyboardEvent.key e) <> "d"%string) ->
  onKey uid e c s = (s, false).
Proof.
  intros Hd Hb Hc. unfold onKey.
  destruct (String.eqb_spec (KeyboardEvent.key e) "Delete"); [contradiction|].
  destruct (String.eqb_spec (KeyboardEvent.key e) "Backspace"); [contradiction|].
  assert (C : forall k, k = "z"%string \/ k = "y"%string \/ k = "d"%string ->
                        chord e k = false).
  { intros k Hk. unfold chord. destruct Hc as [Hm|(Hz & Hy & Hdd)].
    - rewrite Hm. reflexivity.
    - destruct (String.eqb_spec (toLowerCase (KeyboardEvent.key e)) k) as [E|_];
        [|apply andb_false_r].
      exfalso. destruct Hk as [->|[->| ->]]; auto. }
  rewrite !C by auto. reflexivity.
Qed.

Lemma onKey_ignores_witness :
  onKey "u"%string (KeyboardEvent.mk "z"%string false false false)
        exUploading exUploaded
  = (exUploaded, false) /\
  onKey "u"%string (KeyboardEvent.mk "a"%string true false false)
        exSelected exSelected
  = (exSelected, false).
Proof.
  split.
  - apply onKey_ignores; [discriminate|discriminate|left; reflexivity].
  - apply onKey_ignores; [discriminate|discriminate|right].
    repeat split; discriminate.
Defined.

(** X15. The undo shortcut (Ctrl or Cmd with Z, no Shift) suppresses the
    browser's handling and, with a non-empty history that the listener's
    render [c] shares with the current state [s], steps back to the last
    history entry as [undo] does, except that the snapshot it pushes on the
    future stack is the document of [c], not the current one.  The listener
    is then registered anew (the history changed), and either redo shortcut
    (Shift with Z, or Y) gives back [s] with the assets and pieces of [c] in
    place of its own: it gives back [s] itself exactly when the listener's
    render held the current document, and otherwise the changes made since
    that render are lost. *)
Theorem onKey_undo_then_redo (uid : string) (e1 e2 : KeyboardEvent.t) (c s : State) :
  chord e1 "z" = true ->
  KeyboardEvent.shiftKey e1 = false ->
  (chord e2 "z" = true /\ KeyboardEvent.shiftKey e2 = true) \/ chord e2 "y" = true ->
  history c = history s ->
  history s <> [] ->
  let s1 := fst (onKey uid e1 c s) in
  snd (onKey uid e1 c s) = true /\
  snapshot s1 = snapshot (undo s) /\
  history s1 = history (undo s) /\
  future s1 = snapshot c :: future s /\
  onKey uid e2 s1 s1
  = (s |> setAssets (to (assets c)) |> setPieces (to (pieces c)), true) /\
  (snapshot c = snapshot s <-> onKey uid e2 s1 s1 = (s, true)).
Proof.
  intros H1 Hs1 H2 Hc Hne s1.
  destruct (snoc_cases (history s)) as [E|[h [d E]]]; [contradiction|].
  assert (U : s1 = mkState (Project.assets d) (Project.pieces d) (selectedId s) h
                           (snapshot c :: future s) (suppressUI s) (snapEnabled s)).
  { unfold s1. rewrite (onKey_chord_z uid e1 c s H1), Hs1. simpl.
    apply undoFrom_snoc; assumption. }
  assert (R : redo s1 = s |> setAssets (to (assets c)) |> setPieces (to (pieces c))).
  { rewrite U. erewrite redo_cons by reflexivity.
    unfold setPieces, setAssets, to. simpl. rewrite E.
    destruct d as [da dp]. reflexivity. }
  assert (K : onKey uid e2 s1 s1 = (redo s1, true)).
  { destruct H2 as [[Hz Hs2]|Hy].
    - rewrite (onKey_chord_z uid e2 s1 s1 Hz), Hs2. reflexivity.
    - rewrite (onKey_chord_y uid e2 s1 s1 Hy). reflexivity. }
  split; [unfold s1; rewrite (onKey_chord_z uid e1 c s H1); reflexivity|].
  split; [rewrite U, (undo_snoc s h d E); reflexivity|].
  split; [rewrite U, (undo_snoc s h d E); reflexivity|].
  split; [rewrite U; reflexivity|].
  split; [rewrite K, R; reflexivity|].
  rewrite K, R. split.
  - intros Hsnap. unfold snapshot, structuredClone in Hsnap.
    injection Hsnap as Ha Hp. rewrite Ha, Hp. destruct s. reflexivity.
  - intros Heq. injection Heq as Hs. apply (f_equal snapshot) in Hs. exact Hs.
Qed.

Lemma onKey_undo_then_redo_witness :
  let s1 := fst (onKey "u"%string exCtrlZ exUploading exUploaded) in
  length (assets exUploaded) = 3%nat /\
  fst (onKey "u"%string exCtrlShiftZ s1 s1)
  = (exUploaded |> setAssets (to (assets exStart)) |> setPieces (to [])) /\
  length (assets (fst (onKey "u"%string exCtrlShiftZ s1 s1))) = 1%nat.
Proof.
  intros s1.
  destruct (onKey_undo_then_redo "u"%string exCtrlZ exCtrlShiftZ exUploading exUploaded)
    as (_ & _ & _ & _ & K & _);
    [reflexivity|reflexivity|left; split; reflexivity|reflexivity|discriminate|].
  fold s1 in K. split; [reflexivity|]. rewrite K. split; reflexivity.
Defined.

(** ** Export *)




(** ** Piece identifiers *)

Lemma map_id_restack (sel : string) (g : Piece.t -> Piece.t) (ps : list Piece.t) :
  (forall p, Piece.id (g p) = Piece.id p) ->
  map Piece.id (map (fun x => if String.eqb (Piece.id x) sel then g x else x) ps)
  = map Piece.id ps.
Proof.
  intros Hg. rewrite map_map. apply map_ext. intros p.
  destruct (String.eqb (Piece.id p) sel); [apply Hg|reflexivity].
Qed.

Lemma NoDup_ids_filter (f : Piece.t -> bool) (ps : list Piece.t) :
  NoDup (map Piece.id ps) -> NoDup (map Piece.id (filter f ps)).
Proof.
  induction ps as [|a l IH]; intros H; [constructor|].
  simpl in *. inversion H as [|? ? Hnin Hnd]; subst.
  destruct (f a); [|apply IH; exact Hnd].
  simpl. constructor; [|apply IH; exact Hnd].
  intros Hin. apply Hnin. apply in_map_iff in Hin. destruct Hin as [q [Eq Hq]].
  apply filter_In in Hq. apply in_map_iff. exists q. split; [exact Eq|exact (proj1 Hq)].
Qed.

Lemma NoDup_ids_snoc (uid : string) (c : Piece.t) (ps : list Piece.t) :
  NoDup (map Piece.id ps) -> freshId uid ps = true -> Piece.id c = uid ->
  NoDup (map Piece.id (ps ++ [c])).
Proof.
  intros Hnd Hfresh Hc. rewrite map_app. simpl.
  apply NoDup_app; [exact Hnd|constructor; [intros []|constructor]|].
  intros i Hin [E|[]]. apply in_map_iff in Hin. destruct Hin as [q [Eq Hq]].
  apply (freshId_spec uid ps Hfresh q Hq). congruence.
Qed.

Lemma filter_out_one (sp : Piece.t) (ps : list Piece.t) :
  NoDup (map Piece.id ps) -> In sp ps ->
  (length (filter (fun x => negb (String.eqb (Piece.id x) (Piece.id sp))) ps) + 1
   = length ps)%nat.
Proof.
  induction ps as [|a l IH]; intros Hnd Hin; [contradiction|].
  simpl in *. inversion Hnd as [|? ? Hnin Hnd']; subst.
  destruct (String.eqb_spec (Piece.id a) (Piece.id sp)) as [E|N]; simpl.
  - rewrite forallb_filter_id.
    + lia.
    + apply forallb_forall. intros q Hq.
      destruct (String.eqb_spec (Piece.id q) (Piece.id sp)) as [Eq|_]; [|reflexivity].
      exfalso. apply Hnin. apply in_map_iff. exists q. split; [congruence|exact Hq].
  - destruct Hin as [->|Hin]; [contradiction N; reflexivity|].
    rewrite <- (IH Hnd' Hin). lia.
Qed.

(** X17. Piece ids stay pairwise distinct: if they are distinct and [uid()]
    draws an id not in use, they are distinct after any recording handler.
    With distinct ids the handlers act on one piece only: removing a
    selected piece (with a non-empty id) takes exactly one piece off the
    list. *)
Theorem unique_ids_preserved (s : State) (m : Mutation) :
  NoDup (map Piece.id (pieces s)) ->
  freshFor m s = true ->
  NoDup (map Piece.id (pieces (apply m s))) /\
  (forall sp, selectedPiece s = Some sp ->
              Piece.id sp <> EmptyString ->
              (length (pieces (removeSelected s)) + 1 = length (pieces s))%nat).
Proof.
  intros Hnd Hfresh. split.
  - destruct m as [uid files|canvasRef uid asset| |uid| |]; simpl in *.
    + unfold onUpload. destruct files as [[|f fl]|]; try exact Hnd.
      destruct (readFiles uid 0 (f :: fl)); exact Hnd.
    + destruct canvasRef as [rect|]; [|exact Hnd]. simpl.
      apply (NoDup_ids_snoc uid); auto.
    + unfold removeSelected. destruct (selectedId s) as [sel|]; [|exact Hnd].
      destruct (String.eqb sel EmptyString); [exact Hnd|]. simpl.
      apply NoDup_ids_filter. exact Hnd.
    + unfold duplicateSelected. destruct (selectedPiece s) as [sp|]; [|exact Hnd].
      simpl. apply (NoDup_ids_snoc uid); auto.
    + unfold bringForward. destruct (selectedPiece s) as [sp|]; [|exact Hnd].
      simpl. rewrite map_id_restack; [exact Hnd|reflexivity].
    + unfold sendBackward. destruct (selectedPiece s) as [sp|]; [|exact Hnd].
      simpl. rewrite map_id_restack; [exact Hnd|reflexivity].
  - intros sp Hsel Hne. apply selectedPiece_in in Hsel. destruct Hsel as [Hin Hid].
    unfold removeSelected. rewrite Hid.
    destruct (String.eqb_spec (Piece.id sp) EmptyString); [contradiction|].
    simpl. apply filter_out_one; assumption.
Qed.

Lemma unique_ids_preserved_witness :
  NoDup (map Piece.id (pieces (apply (Duplicate "p3"%string) (run exOps exStart)))) /\
  (length (pieces (removeSelected (run exOps exStart))) + 1
   = length (pieces (run exOps exStart)))%nat.
Proof.
  assert (Hnd : NoDup (map Piece.id (pieces (run exOps exStart)))).
  { change (NoDup ["p1"%string; "p2"%string]).
    constructor; [intros [E|[]]; discriminate E|].
    constructor; [intros []|constructor]. }
  destruct (unique_ids_preserved (run exOps exStart) (Duplicate "p3"%string) Hnd eq_refl)
    as [Hd Hr].
  split; [exact Hd|]. apply (Hr _ eq_refl). discriminate.
Defined.

(** ** Placing and the drawing order *)

Lemma insertBy_snoc (a v : Piece.t) (m : list Piece.t) :
  zLe a v -> insertBy byZ a (m ++ [v]) = insertBy byZ a m ++ [v].
Proof.
  intros Hav. induction m as [|w rest IH]; simpl.
  - rewrite (proj2 (byZ_le a v) Hav). reflexivity.
  - destruct (Qle_bool (byZ a w) 0); [reflexivity|]. rewrite IH. reflexivity.
Qed.

Lemma Array_sort_snoc (v : Piece.t) (l : list Piece.t) :
  (forall p, In p l -> zLe p v) ->
  Array_sort byZ (l ++ [v]) = Array_sort byZ l ++ [v].
Proof.
  induction l as [|a rest IH]; intros H; [reflexivity|].
  simpl. rewrite IH by (intros p Hp; apply H; right; exact Hp).
  apply insertBy_snoc. apply H. left. reflexivity.
Qed.

(** X18. When no piece lies above the height a newly placed piece gets (one
    more than the height of the last piece of the list), the new piece is
    drawn last, on top of all others, the drawing order of the pieces already
    there being unchanged. *)
Theorem addPiece_drawn_on_top (s : State) (rect : DOMRect.t) (uid : string)
  (asset : Asset.t) :
  noneAbove (nextZ (pieces s)) (pieces s) = true ->
  let s' := addPieceFromAsset (Some rect) uid asset s in
  exists np : Piece.t,
    lastElement (pieces s') = Some np /\
    Piece.id np = uid /\
    drawingOrder s' = drawingOrder s ++ [np].
Proof.
  intros H s'. exists (newPiece rect uid asset (pieces s)).
  split; [apply lastElement_snoc|]. split; [reflexivity|].
  unfold drawingOrder, s'. simpl. apply Array_sort_snoc.
  intros p Hp. unfold noneAbove in H. rewrite forallb_forall in H.
  specialize (H p Hp). apply Qle_bool_iff in H. exact H.
Qed.

Lemma addPiece_drawn_on_top_witness :
  exists np : Piece.t,
    Piece.id np = "p3"%string /\
    drawingOrder (addPieceFromAsset (Some exCanvas) "p3"%string exAsset
                                    (run exOps exStart))
    = drawingOrder (run exOps exStart) ++ [np].
Proof.
  destruct (addPiece_drawn_on_top (run exOps exStart) exCanvas "p3"%string exAsset eq_refl)
    as (np & _ & Hid & Hd).
  exists np. split; [exact Hid|exact Hd].
Defined.

(** ** Undoing a creation *)

(** X19. Undoing the placement or the duplication that created a piece
    (under an id no other piece carries) takes the piece away but leaves
    [selectedId] pointing at it, so that the selected-piece lookup finds
    nothing; [redo] brings the piece back, and with it the selection. *)
Theorem undo_creation_deselects (s : State) (uid : string) :
  freshId uid (pieces s) = true ->
  (forall rect asset,
     let s' := addPieceFromAsset (Some rect) uid asset s in
     pieces (undo s') = pieces s /\
     selectedId (undo s') = Some uid /\
     selectedPiece (undo s') = None /\
     redo (undo s') = s') /\
  (forall sp,
     selectedPiece s = Some sp ->
     let s' := duplicateSelected uid s in
     pieces (undo s') = pieces s /\
     selectedId (undo s') = Some uid /\
     selectedPiece (undo s') = None /\
     redo (undo s') = s').
Proof.
  intros Hfresh.
  assert (N : forall s' : State,
            history s' = history s ++ [snapshot s] ->
            selectedId s' = Some uid ->
            pieces (undo s') = pieces s /\
            selectedId (undo s') = Some uid /\
            selectedPiece (undo s') = None /\
            redo (undo s') = s').
  { intros s' Hh Hs. rewrite (undo_snoc s' _ _ Hh).
    split; [reflexivity|]. split; [exact Hs|]. split.
    - unfold selectedPiece. simpl. rewrite Hs.
      apply find_hasId_absent. apply freshId_spec. exact Hfresh.
    - rewrite <- (undo_snoc s' _ _ Hh). apply redo_undo. rewrite Hh.
      destruct (history s); discriminate. }
  split.
  - intros rect asset s'. apply N; reflexivity.
  - intros sp Hsel s'. apply N; unfold s', duplicateSelected; rewrite Hsel; reflexivity.
Qed.

Lemma undo_creation_deselects_witness :
  selectedId (undo (duplicateSelected "p2"%string exSelected)) = Some "p2"%string /\
  selectedPiece (undo (duplicateSelected "p2"%string exSelected)) = None.
Proof.
  destruct (undo_creation_deselects exSelected "p2"%string eq_refl) as [_ D].
  destruct (D _ eq_refl) as (_ & Hs & Hn & _).
  split; [exact Hs|exact Hn].
Defined.
